(** * indra_files_db: the IndexedDB file store and its UI wiring

    A shallow embedding of [main_file.js]: the promise wrappers around the
    browser's IndexedDB object store [files] (addFileEntry, listAllFiles,
    getFileById, deleteFileById, clearAll), the list renderer (humanSize,
    createFileRow, renderList) and the click handlers of the upload,
    refresh, clear-all and per-row delete buttons.  The download button
    comes last, over a tab that also holds object URLs, downloads and
    timers.

    The script runs on three platform services, which are modelled first:
    the ECMAScript built-ins it calls ([Number], number-to-string
    conversion, [toFixed], [Array.prototype.sort]), the IndexedDB object
    store with a key generator, and the DOM state the handlers touch. *)

From Stdlib Require Import ZArith List String Ascii Bool Lia.
From Stdlib Require Import Decimal DecimalString DecimalN DecimalZ.
From Stdlib Require Import Sorted Permutation.
Import ListNotations.

Local Open Scope string_scope.
Local Open Scope Z_scope.

(** ** ECMAScript numbers

    Every number the script handles is an integer below [2^53] (record ids,
    byte sizes, millisecond timestamps), so numbers are kept as [Z].  The
    only place where another number can arise is [Number(id)] on an argument
    that came from outside; its result is classified by what the object
    store does with it as a key. *)

Definition MAX_SAFE : Z := 2 ^ 53.

Inductive jsnum : Type :=
| Int (z : Z)   (* an integral number *)
| Frac          (* any other number that is not NaN: a fraction, +-Infinity *)
| NaN.

Inductive jsval : Type :=
| VNum (x : jsnum)
| VStr (s : string)
| VBool (b : bool)
| VNull
| VUndefined.

(** *** Number::toString and [n + ' B'] for an integer below 1e21 *)

Definition ToString (z : Z) : string :=
  NilZero.string_of_int (Z.to_int z).

(** *** Number(id)

    [Number] applied to a string is StringToNumber: the string is trimmed
    of white space; the empty string is 0; otherwise it must be a
    StrNumericLiteral (a signed decimal literal with optional fraction and
    exponent, [Infinity], or an unsigned 0x / 0o / 0b integer), whose
    mathematical value is rounded to the nearest double, ties to even.
    Strings are sequences of 8-bit code units here, so the white space
    recognised is TAB, LF, VT, FF, CR, SP and NBSP. *)

Definition is_ws (c : ascii) : bool :=
  let n := N_of_ascii c in
  ((9 <=? n) && (n <=? 13) || (n =? 32) || (n =? 160))%N.

Fixpoint skip_ws (s : string) : string :=
  match s with
  | String c r => if is_ws c then skip_ws r else s
  | EmptyString => EmptyString
  end.

Definition blank (s : string) : bool :=
  match skip_ws s with EmptyString => true | _ => false end.

Definition digit_of (c : ascii) : option (uint -> uint) :=
  match c with
  | "0"%char => Some D0 | "1"%char => Some D1 | "2"%char => Some D2
  | "3"%char => Some D3 | "4"%char => Some D4 | "5"%char => Some D5
  | "6"%char => Some D6 | "7"%char => Some D7 | "8"%char => Some D8
  | "9"%char => Some D9 | _ => None
  end.

(** The longest prefix of decimal digits, and what follows it. *)
Fixpoint scan_digits (s : string) : uint * string :=
  match s with
  | String c r =>
      match digit_of c with
      | Some d => let (ds, rest) := scan_digits r in (d ds, rest)
      | None => (Nil, s)
      end
  | EmptyString => (Nil, EmptyString)
  end.

Definition is_nil (d : uint) : bool :=
  match d with Nil => true | _ => false end.

(** Digits of the non-decimal integer literals. *)
Definition radix_digit (c : ascii) : option N :=
  let n := N_of_ascii c in
  (if (48 <=? n) && (n <=? 57) then Some (n - 48)
   else if (97 <=? n) && (n <=? 102) then Some (n - 87)
   else if (65 <=? n) && (n <=? 70) then Some (n - 55)
   else None)%N.

Fixpoint scan_radix (b acc : N) (s : string) : option N :=
  match s with
  | String c r =>
      match radix_digit c with
      | Some v => if (v <? b)%N then scan_radix b (acc * b + v)%N r
                  else if blank s then Some acc else None
      | None => if blank s then Some acc else None
      end
  | EmptyString => Some acc
  end.

(** A non-decimal literal needs at least one digit after its prefix. *)
Definition radix_literal (b : N) (s : string) : option N :=
  match s with
  | String c _ =>
      match radix_digit c with
      | Some v => if (v <? b)%N then scan_radix b 0 s else None
      | None => None
      end
  | EmptyString => None
  end.

(** Rounding of a non-negative rational [n/d] to a double.  [x] is the
    exponent of the last place of the significand (at least -1074, where
    the subnormals live); the significand [m] is rounded to nearest, ties
    to even; a result from [2^1024] on is Infinity. *)

Definition round_half_even (n d : Z) : Z :=
  let q := n / d in
  match 2 * (n mod d) ?= d with
  | Lt => q
  | Gt => q + 1
  | Eq => if Z.even q then q else q + 1
  end.

Definition pow2 (k : Z) : Z := 2 ^ Z.max 0 k.

Definition double_of (n d : Z) : jsnum :=
  if n =? 0 then Int 0 else
  let e0 := Z.log2 n - Z.log2 d in
  let e := if n * pow2 (- e0) <? d * pow2 e0 then e0 - 1 else e0 in
  let x := Z.max (e - 52) (-1074) in
  let m := round_half_even (n * pow2 (- x)) (d * pow2 x) in
  if 0 <=? x then
    if 2 ^ 1024 <=? m * 2 ^ x then Frac else Int (m * 2 ^ x)
  else
    if m mod 2 ^ (- x) =? 0 then Int (m / 2 ^ (- x)) else Frac.

Definition negate (x : jsnum) : jsnum :=
  match x with Int z => Int (- z) | _ => x end.

(** The mathematical value [m * 10^e] of a decimal literal, as a double. *)
Definition decimal_value (m : N) (e : Z) : jsnum :=
  if 0 <=? e then double_of (Z.of_N m * 10 ^ e) 1
  else double_of (Z.of_N m) (10 ^ (- e)).

Definition take_sign (s : string) : bool * string :=
  match s with
  | String "-"%char r => (true, r)
  | String "+"%char r => (false, r)
  | _ => (false, s)
  end.

Definition exponent_part (s : string) : option Z :=
  match s with
  | String c r =>
      if (Ascii.eqb c "e" || Ascii.eqb c "E")%bool then
        let (neg, r1) := take_sign r in
        let (ds, r2) := scan_digits r1 in
        if is_nil ds || negb (blank r2) then None
        else Some (if neg then - Z.of_N (N.of_uint ds) else Z.of_N (N.of_uint ds))
      else if blank s then Some 0 else None
  | EmptyString => Some 0
  end.

Definition StrUnsignedDecimalLiteral (s : string) : jsnum :=
  if String.prefix "Infinity" s then
    (if blank (String.substring 8 (String.length s - 8) s) then Frac else NaN)
  else
    let (ip, r1) := scan_digits s in
    let (fp, r2) :=
      match r1 with
      | String "."%char r => scan_digits r
      | _ => (Nil, r1)
      end in
    if is_nil ip && is_nil fp then NaN
    else match exponent_part r2 with
         | Some ex =>
             decimal_value (N.of_uint (Decimal.app ip fp))
                           (ex - Z.of_nat (Decimal.nb_digits fp))
         | None => NaN
         end.

Definition NonDecimalIntegerLiteral (s : string) : option jsnum :=
  match s with
  | String "0"%char (String c r) =>
      let lit b := Some match radix_literal b r with
                        | Some v => double_of (Z.of_N v) 1
                        | None => NaN
                        end in
      if (Ascii.eqb c "x" || Ascii.eqb c "X")%bool then lit 16%N
      else if (Ascii.eqb c "o" || Ascii.eqb c "O")%bool then lit 8%N
      else if (Ascii.eqb c "b" || Ascii.eqb c "B")%bool then lit 2%N
      else None
  | _ => None
  end.

Definition StringToNumber (s : string) : jsnum :=
  match skip_ws s with
  | EmptyString => Int 0
  | t =>
      match NonDecimalIntegerLiteral t with
      | Some x => x
      | None =>
          let (neg, r) := take_sign t in
          if neg then negate (StrUnsignedDecimalLiteral r)
          else StrUnsignedDecimalLiteral r
      end
  end.

Definition Number (v : jsval) : jsnum :=
  match v with
  | VNum x => x
  | VStr s => StringToNumber s
  | VBool b => Int (if b then 1 else 0)
  | VNull => Int 0
  | VUndefined => NaN
  end.

(** *** Number::toString from 1e21 on

    A number from 1e21 on is printed in exponent notation, with the
    fewest significant digits that still read back as the same double and,
    among those, the digits closest to it (the even ones on a tie).  The
    candidates with [k] digits are the two multiples of [10^(n-k)] around
    [x]. *)

Definition decimal_digits (z : Z) : nat :=
  match z with
  | Z.pos p => Decimal.nb_digits (Pos.to_uint p)
  | _ => 1
  end.

Definition rounds_to (v x : Z) : bool :=
  match double_of v 1 with
  | Int z => z =? x
  | _ => false
  end.

Definition shortest_at (x : Z) (n k : nat) : option Z :=
  let scale := 10 ^ Z.of_nat (n - k) in
  let lo := x / scale * scale in
  let hi := lo + scale in
  match rounds_to lo x, rounds_to hi x with
  | true, true =>
      match x - lo ?= hi - x with
      | Lt => Some lo
      | Gt => Some hi
      | Eq => Some (if Z.even (x / scale) then lo else hi)
      end
  | true, false => Some lo
  | false, true => Some hi
  | false, false => None
  end.

Fixpoint shortest_from (fuel : nat) (x : Z) (n k : nat) : Z :=
  match fuel with
  | O => x
  | S fuel' =>
      match shortest_at x n k with
      | Some v => v
      | None => shortest_from fuel' x n (S k)
      end
  end.

(** [d.ddde+n] for the digits of [v] without its trailing zeros. *)
Definition exponent_form (v : Z) : string :=
  let d := Pos.to_uint (Z.to_pos v) in
  let (sig, zeros) := Decimal.nztail d in
  let e := Z.of_nat (Decimal.nb_digits d) - 1 in
  match NilEmpty.string_of_uint sig with
  | String c EmptyString => String c EmptyString ++ "e+" ++ ToString e
  | String c rest => String c EmptyString ++ "." ++ rest ++ "e+" ++ ToString e
  | EmptyString => EmptyString
  end.

Definition ToString_large (x : Z) : string :=
  let n := decimal_digits x in
  exponent_form (shortest_from n x n 1).

(** *** Number.prototype.toFixed(1)

    [toFixed1 p q] is [(p/q).toFixed(1)] for [p >= 0] and [q > 0].  Below
    1e21 it is the integer [t] with [t/10] closest to the quotient, the
    larger one on a tie, printed with one digit after the point; the
    quotients taken here, of a number by a power of two, are exact.  From
    1e21 on [toFixed] returns the number's own string, in exponent
    notation, and [Infinity] for a quotient beyond the doubles. *)

Definition tenths (p q : Z) : Z := (2 * 10 * p + q) / (2 * q).

Definition toFixed1 (p q : Z) : string :=
  if p <? 1000000000000000000000 * q then
    let t := tenths p q in
    ToString (t / 10) ++ "." ++ ToString (t mod 10)
  else
    match double_of p q with
    | Int z => ToString_large z
    | _ => "Infinity"
    end.

(** *** humanSize (main_file.js, l.84) *)

Definition humanSize (n : Z) : string :=
  if n <? 1024 then ToString n ++ " B"
  else if n <? 1024 * 1024 then toFixed1 n 1024 ++ " KB"
  else if n <? 1024 * 1024 * 1024 then toFixed1 n (1024 * 1024) ++ " MB"
  else toFixed1 n (1024 * 1024 * 1024) ++ " GB".

(** *** Array.prototype.sort

    The sort is stable and orders by the sign of the comparator; for a
    consistent comparator every stable sort returns the same array, here
    the one of insertion sort. *)

Section Sort.
Context {A : Type} (cmp : A -> A -> Z).

Fixpoint sort_insert (x : A) (l : list A) : list A :=
  match l with
  | [] => [x]
  | y :: l' => if cmp x y <=? 0 then x :: l else y :: sort_insert x l'
  end.

Fixpoint Array_sort (l : list A) : list A :=
  match l with
  | [] => []
  | x :: l' => sort_insert x (Array_sort l')
  end.
End Sort.

(** ** The IndexedDB object store

    [indra_files_db] holds one object store, [files], created with
    [{ keyPath: 'id', autoIncrement: true }].  A stored record is the entry
    built by addFileEntry with the generated key written to its [id]. *)

Record File : Type := mkFile {
  file_name : string;
  file_type : string;
  file_size : Z;
  file_bytes : string
}.

(** The object literal of addFileEntry (l.26): no [id] yet. *)
Record entry : Type := mkEntry {
  e_name : string;
  e_type : string;
  e_size : Z;
  e_added : Z;
  e_blob : File
}.

Record record : Type := mkRecord {
  id : Z;
  name : string;
  type : string;
  size : Z;
  added : Z;
  blob : File
}.

Definition with_key (k : Z) (e : entry) : record :=
  {| id := k; name := e_name e; type := e_type e; size := e_size e;
     added := e_added e; blob := e_blob e |}.

Record DOMException : Type := mkError {
  err_name : string;
  err_message : string
}.

Definition ConstraintError : DOMException :=
  mkError "ConstraintError" "Key already exists in the object store.".

Definition KeyGeneratorError : DOMException :=
  mkError "ConstraintError" "The key generator has reached its maximum value.".

Definition DataError : DOMException :=
  mkError "DataError" "The parameter is not a valid key.".

(** Records are kept in ascending key order, the order [getAll] returns
    them in; [keygen] is the key generator's current number. *)
Record objectStore : Type := mkStore {
  records : list record;
  keygen : Z
}.

Definition createObjectStore : objectStore :=
  {| records := []; keygen := 1 |}.

Fixpoint has_key (k : Z) (l : list record) : bool :=
  match l with
  | [] => false
  | r :: l' => (id r =? k) || has_key k l'
  end.

Fixpoint put_record (r : record) (l : list record) : list record :=
  match l with
  | [] => [r]
  | r' :: l' => if id r <? id r' then r :: l else r' :: put_record r l'
  end.

(** [store.add(entry)] on a store with a key generator and an entry without
    [id]: the generator fails above [2^53]; the generated key is written
    to the entry, which is stored unless the key is taken. *)
Definition store_add (e : entry) (s : objectStore)
  : (Z + DOMException) * objectStore :=
  let k := keygen s in
  if MAX_SAFE <? k then (inr KeyGeneratorError, s)
  else if has_key k (records s) then (inr ConstraintError, s)
  else (inl k, {| records := put_record (with_key k e) (records s);
                  keygen := k + 1 |}).

Definition store_getAll (s : objectStore) : list record := records s.

(** A key for [get] and [delete]: any number but NaN.  The stored keys are
    integers, so a key that is not an integer matches none of them. *)
Definition key_matches (x : jsnum) (r : record) : bool :=
  match x with
  | Int k => id r =? k
  | _ => false
  end.

Definition store_get (x : jsnum) (s : objectStore) : option record :=
  find (key_matches x) (records s).

Definition store_delete (x : jsnum) (s : objectStore) : objectStore :=
  {| records := filter (fun r => negb (key_matches x r)) (records s);
     keygen := keygen s |}.

Definition store_clear (s : objectStore) : objectStore :=
  {| records := []; keygen := keygen s |}.

(** ** The page and the platform

    What the script cannot decide is an input of the run: whether the
    engine completes its i-th request or fails it (and with which error),
    whether the transaction of a completed store request commits or is
    aborted and rolled back afterwards, what [Date.now()] reads, what the
    user answers to [confirm].  Each is a function of the call's index,
    with a counter in the state. *)

Record platform : Type := mkPlatform {
  engine : nat -> option DOMException;
  commit : nat -> bool;
  clock : nat -> Z;
  answers : nat -> bool
}.

(** A child of [#fileList]: the placeholder, or a row made by createFileRow
    with the item its two buttons close over.  The row's info line is
    [humanSize(item.size)] and the locale's rendering of [item.added]; the
    date is kept as the timestamp it renders. *)
Inductive node : Type :=
| EmptyNote (text : string)
| FileRow (item : record) (name_text size_text : string) (date : Z).

Record dom : Type := mkDom {
  fileInput_files : list File;
  uploadBtn_disabled : bool;
  uploadBtn_textContent : string;
  fileList_children : list node;
  alerts : list string;          (* alert() calls, oldest first *)
  console : list DOMException;   (* console.error() calls *)
  unhandled : list DOMException  (* unhandled promise rejections *)
}.

Record world : Type := mkWorld {
  env : platform;
  database : option objectStore;  (* None: indra_files_db not created yet *)
  requests : nat;                 (* engine requests issued so far *)
  ticks : nat;                    (* Date.now() calls so far *)
  prompts : nat;                  (* confirm() calls so far *)
  page : dom
}.

Definition set_database (d : option objectStore) (w : world) : world :=
  mkWorld (env w) d (requests w) (ticks w) (prompts w) (page w).

Definition set_requests (n : nat) (w : world) : world :=
  mkWorld (env w) (database w) n (ticks w) (prompts w) (page w).

Definition set_ticks (n : nat) (w : world) : world :=
  mkWorld (env w) (database w) (requests w) n (prompts w) (page w).

Definition set_prompts (n : nat) (w : world) : world :=
  mkWorld (env w) (database w) (requests w) (ticks w) n (page w).

Definition set_page (p : dom) (w : world) : world :=
  mkWorld (env w) (database w) (requests w) (ticks w) (prompts w) p.

Definition set_files (l : list File) (p : dom) : dom :=
  mkDom l (uploadBtn_disabled p) (uploadBtn_textContent p)
        (fileList_children p) (alerts p) (console p) (unhandled p).

Definition set_disabled (b : bool) (p : dom) : dom :=
  mkDom (fileInput_files p) b (uploadBtn_textContent p)
        (fileList_children p) (alerts p) (console p) (unhandled p).

Definition set_textContent (s : string) (p : dom) : dom :=
  mkDom (fileInput_files p) (uploadBtn_disabled p) s
        (fileList_children p) (alerts p) (console p) (unhandled p).

Definition set_children (l : list node) (p : dom) : dom :=
  mkDom (fileInput_files p) (uploadBtn_disabled p) (uploadBtn_textContent p)
        l (alerts p) (console p) (unhandled p).

Definition set_alerts (l : list string) (p : dom) : dom :=
  mkDom (fileInput_files p) (uploadBtn_disabled p) (uploadBtn_textContent p)
        (fileList_children p) l (console p) (unhandled p).

Definition set_console (l : list DOMException) (p : dom) : dom :=
  mkDom (fileInput_files p) (uploadBtn_disabled p) (uploadBtn_textContent p)
        (fileList_children p) (alerts p) l (unhandled p).

Definition set_unhandled (l : list DOMException) (p : dom) : dom :=
  mkDom (fileInput_files p) (uploadBtn_disabled p) (uploadBtn_textContent p)
        (fileList_children p) (alerts p) (console p) l.

(** The records of the store, none while the database does not exist. *)
Definition stored (w : world) : list record :=
  match database w with
  | Some s => records s
  | None => []
  end.

(** ** Promises

    An async function is a state transformer that settles either way.  The
    handlers run one after the other, each to completion: the page is
    single-threaded and the claims are about one action at a time. *)

Inductive settled (A : Type) : Type :=
| Resolved (a : A)
| Rejected (e : DOMException).
Arguments Resolved {A} a.
Arguments Rejected {A} e.

Definition promise (A : Type) : Type := world -> settled A * world.

Definition resolve {A} (a : A) : promise A := fun w => (Resolved a, w).
Definition reject {A} (e : DOMException) : promise A :=
  fun w => (Rejected e, w).

(** [await m; k] *)
Definition bind {A B} (m : promise A) (k : A -> promise B) : promise B :=
  fun w =>
    match m w with
    | (Resolved a, w') => k a w'
    | (Rejected e, w') => (Rejected e, w')
    end.

Declare Scope promise_scope.
Delimit Scope promise_scope with promise.
Notation "x <- m ;; k" := (bind m (fun x => k))
  (at level 61, m at next level, right associativity) : promise_scope.
Notation "m ;; k" := (bind m (fun _ => k))
  (at level 61, right associativity) : promise_scope.
Local Open Scope promise_scope.

(** [try { m } catch (err) { h err }] *)
Definition try_catch {A} (m : promise A) (h : DOMException -> promise A)
  : promise A :=
  fun w =>
    match m w with
    | (Resolved a, w') => (Resolved a, w')
    | (Rejected e, w') => h e w'
    end.

(** [try { m } finally { f }], for a cleanup [f] that cannot throw. *)
Definition try_finally {A} (m : promise A) (f : world -> world)
  : promise A :=
  fun w => let (r, w') := m w in (r, f w').

(** A call whose promise is dropped: it runs, and a rejection ends up
    unhandled. *)
Definition report (e : DOMException) (w : world) : world :=
  set_page (set_unhandled (unhandled (page w) ++ [e]) (page w)) w.

Definition detach {A} (m : promise A) : promise unit :=
  fun w =>
    match m w with
    | (Resolved _, w') => (Resolved tt, w')
    | (Rejected e, w') => (Resolved tt, report e w')
    end.

(** An event listener: the promise of an async listener is dropped too. *)
Definition dispatch (h : promise unit) (w : world) : world :=
  snd (detach h w).

Definition update (f : dom -> dom) : promise unit :=
  fun w => (Resolved tt, set_page (f (page w)) w).

Definition alert (msg : string) : promise unit :=
  update (fun p => set_alerts (alerts p ++ [msg]) p).

Definition console_error (e : DOMException) : promise unit :=
  update (fun p => set_console (console p ++ [e]) p).

Definition confirm (msg : string) : promise bool :=
  fun w => (Resolved (answers (env w) (prompts w)),
            set_prompts (S (prompts w)) w).

Definition Date_now : promise Z :=
  fun w => (Resolved (clock (env w) (ticks w)), set_ticks (S (ticks w)) w).

(** One request to the engine: the platform says whether it completes. *)
Definition engine_request : promise unit :=
  fun w =>
    let w' := set_requests (S (requests w)) w in
    match engine (env w) (requests w) with
    | None => (Resolved tt, w')
    | Some e => (Rejected e, w')
    end.

(** ** IndexedDB helper (main_file.js, l.1-75) *)

Definition NotFoundError : DOMException :=
  mkError "NotFoundError" "One of the specified object stores was not found.".

(** [indexedDB.open(DB_NAME, 1)]: on success the database exists, the
    upgrade step having created the store if it was not there. *)
Definition openDB : promise unit :=
  engine_request ;;
  fun w =>
    (Resolved tt,
     match database w with
     | None => set_database (Some createObjectStore) w
     | Some _ => w
     end).

(** [db.transaction(STORE, mode).objectStore(STORE)] *)
Definition transaction : promise unit :=
  fun w =>
    match database w with
    | Some _ => (Resolved tt, w)
    | None => (Rejected NotFoundError, w)
    end.

(** A request on the store, wrapped as the script wraps it: [onsuccess]
    resolves with the result, [onerror] rejects with [rq.error], and
    nothing listens to the transaction.  A failed request aborts its
    transaction, so the store is as before.  A request that succeeds
    resolves the promise at once; its transaction commits afterwards, or
    is aborted, and then the store and its key generator are as before
    although the promise has resolved. *)
Definition request {A} (op : objectStore -> (A + DOMException) * objectStore)
  : promise A :=
  fun w =>
    match database w with
    | None => (Rejected NotFoundError, w)
    | Some s =>
        match engine_request w with
        | (Rejected e, w') => (Rejected e, w')
        | (Resolved _, w') =>
            match op s with
            | (inl a, s') =>
                (Resolved a,
                 set_database
                   (Some (if commit (env w) (requests w) then s' else s)) w')
            | (inr e, _) => (Rejected e, w')
            end
        end
    end.

Definition addFileEntry (file : File) : promise Z :=
  openDB ;;
  transaction ;;
  now <- Date_now ;;
  request (store_add {| e_name := file_name file; e_type := file_type file;
                        e_size := file_size file; e_added := now;
                        e_blob := file |}).

Definition listAllFiles : promise (list record) :=
  openDB ;;
  transaction ;;
  request (fun s => (inl (store_getAll s), s)).

(** [store.get(NaN)] and [store.delete(NaN)] throw DataError inside the
    promise's executor, which rejects the promise. *)
Definition getFileById (id : jsval) : promise (option record) :=
  openDB ;;
  transaction ;;
  match Number id with
  | NaN => reject DataError
  | key => request (fun s => (inl (store_get key s), s))
  end.

Definition deleteFileById (id : jsval) : promise unit :=
  openDB ;;
  transaction ;;
  match Number id with
  | NaN => reject DataError
  | key => request (fun s => (inl tt, store_delete key s))
  end.

Definition clearAll : promise unit :=
  openDB ;;
  transaction ;;
  request (fun s => (inl tt, store_clear s)).

(** ** UI wiring (main_file.js, l.77-196) *)

Definition createFileRow (item : record) : node :=
  FileRow item (name item) (humanSize (size item)) (added item).

Definition newest_first (a b : record) : Z := added b - added a.

(** [renderList()] (l.148-163) as one call that runs to its end with no
    other call in flight: the list is emptied, the records are awaited,
    the placeholder or the rows are appended.  The steps of a call, for
    calls that overlap, are [renderList_call] and [renderList_resume]
    below. *)
Definition renderList : promise unit :=
  update (set_children []) ;;
  all <- listAllFiles ;;
  match all with
  | [] =>
      update (fun p => set_children
        (fileList_children p
           ++ [EmptyNote "No files stored. Upload using the control above."]) p)
  | _ =>
      update (fun p => set_children
        (fileList_children p
           ++ map createFileRow (Array_sort newest_first all)) p)
  end.

(** The loop of the upload handler (l.172-176). *)
Fixpoint upload_each (files : list File) : promise unit :=
  match files with
  | [] => resolve tt
  | f :: rest => addFileEntry f ;; upload_each rest
  end.

(** [err.message || err], the error converted with Error.prototype.toString
    when its message is empty. *)
Definition message_or_error (err : DOMException) : string :=
  match err_message err with
  | EmptyString => err_name err
  | msg => msg
  end.

Definition upload_try (files : list File) : promise unit :=
  try_catch
    (upload_each files ;;
     update (set_files []) ;;
     renderList)
    (fun err =>
       console_error err ;;
       alert ("Upload failed: " ++ message_or_error err)).

Definition upload_begin (p : dom) : dom :=
  set_textContent "Uploading..." (set_disabled true p).

Definition upload_end (p : dom) : dom :=
  set_textContent "Upload" (set_disabled false p).

Definition uploadBtn_click : promise unit :=
  fun w =>
    let files := fileInput_files (page w) in
    match files with
    | [] => alert "Select at least one file" w
    | _ =>
        (update upload_begin ;;
         try_finally (upload_try files)
                     (fun w' => set_page (upload_end (page w')) w')) w
    end.

Definition dquote : string := String (ascii_of_N 34) EmptyString.

Definition delBtn_click (item : record) : promise unit :=
  ok <- confirm ("Delete file " ++ dquote ++ name item ++ dquote ++ "?") ;;
  if negb ok then resolve tt
  else deleteFileById (VNum (Int (id item))) ;; detach renderList.

Definition refreshBtn_click : promise unit := renderList.

Definition clearAllBtn_click : promise unit :=
  ok <- confirm "Clear ALL stored files? This cannot be undone." ;;
  if negb ok then resolve tt
  else clearAll ;; detach renderList.

(** * Vocabulary of the properties *)

Local Open Scope list_scope.

(** ** Runs in which the engine completes its requests *)

(** The engine completes the next [n] requests and commits their
    transactions.  For a request that only reads, the commit changes
    nothing. *)
Definition engine_ok (n : nat) (w : world) : Prop :=
  forall i, (i < n)%nat ->
            engine (env w) (requests w + i) = None
            /\ commit (env w) (requests w + i) = true.

(** The store a successful [openDB] hands out. *)
Definition the_store (w : world) : objectStore :=
  match database w with
  | Some s => s
  | None => createObjectStore
  end.

(** The world after [n] completed requests that left the store as [s]. *)
Definition settle (n : nat) (s : objectStore) (w : world) : world :=
  mkWorld (env w) (Some s) (n + requests w) (ticks w) (prompts w) (page w).

(** ** The store's invariant

    Keys come from the key generator only: they are in ascending order,
    at least 1, below the generator's current number, which never passes
    [2^53 + 1]. *)

Definition store_wf (s : objectStore) : Prop :=
  StronglySorted Z.lt (map id (records s))
  /\ Forall (fun r => 1 <= id r < keygen s) (records s)
  /\ 1 <= keygen s <= MAX_SAFE + 1.

Definition world_wf (w : world) : Prop := store_wf (the_store w).

(** Every operation of the script keeps the invariant, whatever the engine
    answers: the stores the script can reach are the well-formed ones. *)

Definition preserves {A} (m : promise A) : Prop :=
  forall w, world_wf w -> world_wf (snd (m w)).

(** ** Uploads *)

(** The entry addFileEntry builds for [file] in world [w] (l.26). *)
Definition entry_of (file : File) (w : world) : entry :=
  {| e_name := file_name file; e_type := file_type file;
     e_size := file_size file; e_added := clock (env w) (ticks w);
     e_blob := file |}.

(** The keys a generator at [k] hands out next. *)
Fixpoint keys_from (k : Z) (n : nat) : list Z :=
  match n with
  | O => []
  | S n' => k :: keys_from (k + 1) n'
  end.

(** ** The upload controller's states *)

Inductive phase : Type := idle | uploading.

(** The controller is uploading exactly while its button is disabled. *)
Definition phase_of (w : world) : phase :=
  if uploadBtn_disabled (page w) then uploading else idle.

(** Steps that leave one property of the page alone, and steps that do
    not touch the page at all. *)
Definition kept {A B} (proj : dom -> B) (m : promise A) : Prop :=
  forall w, proj (page (snd (m w))) = proj (page w).

Definition page_kept {A} (m : promise A) : Prop :=
  forall w, page (snd (m w)) = page w.

(** ** Rendering *)

(** Newest first: no record is followed by a newer one. *)
Definition not_older (a b : record) : Prop := added b <= added a.

(** [s] shows [n/q] rounded to one decimal place: a whole part and one
    digit, no further from [n/q] than half a tenth. *)
Definition one_decimal (n q : Z) (s : string) : Prop :=
  exists whole d,
    0 <= whole /\ 0 <= d <= 9
    /\ s = (ToString whole ++ "." ++ ToString d)%string
    /\ 20 * n - q < 2 * q * (10 * whole + d) <= 20 * n + q.

(** ** Sample runs *)

Definition steady : platform :=
  {| engine := fun _ => None;
     commit := fun _ => true;
     clock := fun i => Z.of_nat i + 1700000000000;
     answers := fun _ => true |}.

Definition QuotaExceeded : DOMException :=
  mkError "QuotaExceededError" "The quota has been exceeded.".

(** The engine fails its [n]-th request, and only that one. *)
Definition failing_at (n : nat) : platform :=
  {| engine := fun i => if Nat.eqb i n then Some QuotaExceeded else None;
     commit := fun _ => true;
     clock := fun i => Z.of_nat i + 1700000000000;
     answers := fun _ => true |}.

(** The engine completes every request, but the transaction of the
    [n]-th is aborted after its request has succeeded. *)
Definition aborting_at (n : nat) : platform :=
  {| engine := fun _ => None;
     commit := fun i => negb (Nat.eqb i n);
     clock := fun i => Z.of_nat i + 1700000000000;
     answers := fun _ => true |}.

Definition loaded_page (files : list File) : dom :=
  mkDom files false "Upload" [] [] [] [].

(** The page as loaded, the database not created yet. *)
Definition boot (e : platform) (files : list File) : world :=
  mkWorld e None 0 0 0 (loaded_page files).

Definition a_txt : File := mkFile "a.txt" "text/plain" 10 "0123456789".
Definition b_bin : File := mkFile "b.bin" "application/octet-stream" 2048 EmptyString.
Definition c_png : File := mkFile "c.png" "image/png" 5242880 EmptyString.

(** The world after a_txt, b_bin and c_png were uploaded. *)
Definition three_files (e : platform) : world :=
  snd (upload_each [a_txt; b_bin; c_png] (boot e [])).

(** The second of three files fails: request 3 is its [add]. *)
Definition second_fails : world := boot (failing_at 3) [a_txt; b_bin; c_png].

Definition b_record : record :=
  mkRecord 2 "b.bin" "application/octet-stream" 2048 1700000000001 b_bin.

(** One stored record, and an engine that fails the request after the
    next [open]. *)
Definition one_record : world :=
  mkWorld (failing_at 1)
          (Some {| records := [with_key 1 (entry_of a_txt (boot steady []))];
                   keygen := 2 |})
          0 0 0 (loaded_page []).

(** ** Sessions

    What can happen to the page after it has loaded: the user picks files
    and clicks, and the five gateway functions are called from the console
    through [window._indra_files] (l.199).  Each action runs to its end
    before the next one starts. *)

Inductive action : Type :=
| SelectFiles (files : list File)
| ClickUpload
| ClickRefresh
| ClickClearAll
| ClickDelete (item : record)
| Call_addFileEntry (file : File)
| Call_listAllFiles
| Call_getFileById (v : jsval)
| Call_deleteFileById (v : jsval)
| Call_clearAll.

Definition step (a : action) (w : world) : world :=
  match a with
  | SelectFiles files => set_page (set_files files (page w)) w
  | ClickUpload => dispatch uploadBtn_click w
  | ClickRefresh => dispatch refreshBtn_click w
  | ClickClearAll => dispatch clearAllBtn_click w
  | ClickDelete item => dispatch (delBtn_click item) w
  | Call_addFileEntry file => snd (addFileEntry file w)
  | Call_listAllFiles => snd (listAllFiles w)
  | Call_getFileById v => snd (getFileById v w)
  | Call_deleteFileById v => snd (deleteFileById v w)
  | Call_clearAll => snd (clearAll w)
  end.

Definition run (acts : list action) (w : world) : world :=
  fold_left (fun w' a => step a w') acts w.

(** A step [m] relates every world to the one it leaves. *)
Definition respects (R : world -> world -> Prop) {A} (m : promise A) : Prop :=
  forall w, R w (snd (m w)).

(** How the store may differ from an earlier one: the key generator has
    not gone back, and every record is an earlier record or carries a key
    the generator had not handed out yet. *)
Definition evolves (w w' : world) : Prop :=
  keygen (the_store w) <= keygen (the_store w')
  /\ (forall r, In r (stored w') ->
                In r (stored w) \/ keygen (the_store w) <= id r).

Definition keeps_wf (w w' : world) : Prop := world_wf w -> world_wf w'.

(** The records with timestamp [t], in list order. *)
Definition added_at (t : Z) (l : list record) : list record :=
  filter (fun r => added r =? t) l.

(** ** The download button (main_file.js, l.113-127)

    Next to the page, the tab holds the object URLs made by
    [URL.createObjectURL] and not revoked yet, the downloads started by a
    click on an anchor, and the pending [setTimeout] callbacks. *)

Record transfers : Type := mkTransfers {
  next_url : nat;                    (* object URLs made so far *)
  live_urls : list (nat * File);     (* made and not revoked: URL, payload *)
  downloads : list (string * nat);   (* a.download, a.href *)
  timers : list (Z * nat)            (* delay in ms, URL to revoke *)
}.

Record session : Type := mkSession {
  tab : world;
  xfer : transfers
}.

(** The record is fetched again; a record always carries its [blob], so
    [!rec || !rec.blob] is the test for a missing record.  The anchor is
    appended, clicked and removed at once, which leaves the document as it
    was. *)
Definition dlBtn_click (item : record) (s : session)
  : settled unit * session :=
  match getFileById (VNum (Int (id item))) (tab s) with
  | (Rejected e, w') => (Rejected e, mkSession w' (xfer s))
  | (Resolved None, w') =>
      (Resolved tt, mkSession (snd (alert "File data missing" w')) (xfer s))
  | (Resolved (Some rec), w') =>
      let x := xfer s in
      let url := next_url x in
      (Resolved tt,
       mkSession w'
         {| next_url := S url;
            live_urls := live_urls x ++ [(url, blob rec)];
            downloads := downloads x ++ [(name rec, url)];
            timers := timers x ++ [(5000, url)] |})
  end.

Definition revokeObjectURL (url : nat) (l : list (nat * File))
  : list (nat * File) :=
  filter (fun u => negb (Nat.eqb (fst u) url)) l.

(** The pending callbacks have run. *)
Definition timers_fired (x : transfers) : transfers :=
  {| next_url := next_url x;
     live_urls := fold_left (fun l t => revokeObjectURL (snd t) l)
                            (timers x) (live_urls x);
     downloads := downloads x;
     timers := [] |}.

(** Three files stored within the same millisecond. *)
Definition frozen_clock : platform :=
  {| engine := fun _ => None;
     commit := fun _ => true;
     clock := fun _ => 1700000000000;
     answers := fun _ => true |}.

(** [m] sends the engine at most [k] requests. *)
Definition asks {A} (k : nat) (m : promise A) : Prop :=
  forall w, (requests w <= requests (snd (m w)) <= k + requests w)%nat.

(** ** A renderList call, step by step

    [renderList] above is a call that runs with no other call in flight.
    The script also starts calls without awaiting them (l.137, 192, 196),
    and a second click can come before the first call has settled.  A
    call runs in three steps, between which other steps can run: when
    called it empties the list and sends the [open]; when the [open]
    completes it sends the [getAll]; when the [getAll] completes it
    appends the placeholder or the rows. *)

Inductive rendering : Type :=
| Opening (i : nat)            (* waiting for request [i], the open *)
| Listing (i : nat)            (* waiting for request [i], the getAll *)
| Settled (r : settled unit).

Definition send_request (w : world) : nat * world :=
  (requests w, set_requests (S (requests w)) w).

Definition renderList_call (w : world) : rendering * world :=
  let (i, w') := send_request (set_page (set_children [] (page w)) w) in
  (Opening i, w').

Definition renderList_resume (st : rendering) (w : world)
  : rendering * world :=
  match st with
  | Opening i =>
      match engine (env w) i with
      | Some e => (Settled (Rejected e), w)
      | None =>
          let (j, w') :=
            send_request
              match database w with
              | None => set_database (Some createObjectStore) w
              | Some _ => w
              end in
          (Listing j, w')
      end
  | Listing i =>
      match engine (env w) i with
      | Some e => (Settled (Rejected e), w)
      | None =>
          (Settled (Resolved tt),
           set_page
             (set_children
                (fileList_children (page w)
                   ++ match stored w with
                      | [] => [EmptyNote
                                 "No files stored. Upload using the control above."]
                      | r :: l => map createFileRow
                                      (Array_sort newest_first (r :: l))
                      end) (page w)) w)
      end
  | Settled r => (Settled r, w)
  end.

(** One call from start to end, nothing else running. *)
Definition renderList_alone (w : world) : rendering * world :=
  let (a, w1) := renderList_call w in
  let (b, w2) := renderList_resume a w1 in
  renderList_resume b w2.

(** Two calls, the second started before the first [open] has completed;
    the engine completes the requests in the order they were sent. *)
Definition renderList_overlapped (w : world) : world :=
  let (a0, w1) := renderList_call w in
  let (b0, w2) := renderList_call w1 in
  let (a1, w3) := renderList_resume a0 w2 in
  let (b1, w4) := renderList_resume b0 w3 in
  let (a2, w5) := renderList_resume a1 w4 in
  snd (renderList_resume b1 w5).

(** [f] has a record in the store. *)
Definition persisted (f : File) (w : world) : Prop :=
  exists r, In r (stored w) /\ blob r = f.

(** C7 read on one run of the upload handler that ends in [w']: if file
    [fk] has not been persisted, no file of [post] has been, and an alert
    has been shown. *)
Definition failure_stops_and_alerts (fk : File) (post : list File)
           (w' : world) : Prop :=
  ~ persisted fk w' ->
  (forall f, In f post -> ~ persisted f w') /\ alerts (page w') <> [].

(** Three files selected; the transaction that stores the second is
    aborted after its request has succeeded (request 3 is its [add]). *)
Definition second_rolled_back : world :=
  boot (aborting_at 3) [a_txt; b_bin; c_png].

(** * Properties *)

(** ** The built-ins on samples *)

Example humanSize_10 : humanSize 10 = "10 B".
Proof. reflexivity. Qed.

Example humanSize_2048 : humanSize 2048 = "2.0 KB".
Proof. reflexivity. Qed.

Example humanSize_256k : humanSize (1024 * 1024 + 256 * 1024) = "1.3 MB".
Proof. reflexivity. Qed.

(** Beyond any file: from 1e21 gigabytes on the number is printed in
    exponent notation. *)
Example humanSize_2_100 :
  humanSize (2 ^ 100) = "1.1805916207174113e+21 GB"
  /\ map ToString_large [10 ^ 21; 2 ^ 80; 2 ^ 1023]
     = ["1e+21"; "1.2089258196146292e+24"; "8.98846567431158e+307"].
Proof. vm_compute. split; reflexivity. Qed.

Example Number_samples :
  map StringToNumber
      ["5"; " 12 "; "0x10"; "1e3"; "1.5"; EmptyString; "abc"; "-0x10"; "5."; ".";
       "Infinity"; "1e400"; "9007199254740993"; "9007199254740995"]
  = [Int 5; Int 12; Int 16; Int 1000; Frac; Int 0; NaN; NaN; Int 5; NaN;
     Frac; Frac; Int 9007199254740992; Int 9007199254740996].
Proof. vm_compute. reflexivity. Qed.

(** ** Running the gateway when the engine completes its requests *)

Lemma stored_the_store w : records (the_store w) = stored w.
Proof. unfold the_store, stored. now destruct (database w). Qed.

Lemma engine_ok_head n w :
  engine_ok (S n) w -> engine (env w) (requests w) = None.
Proof.
  intros H. specialize (H 0%nat). rewrite Nat.add_0_r in H. apply H. lia.
Qed.

Lemma engine_ok_weaken n m w :
  (m <= n)%nat -> engine_ok n w -> engine_ok m w.
Proof. intros Hle H i Hi. apply H. lia. Qed.

Lemma engine_ok_settle k n s w :
  engine_ok (k + n) w -> engine_ok n (settle k s w).
Proof.
  intros H i Hi. unfold settle; simpl.
  replace (k + requests w + i)%nat with (requests w + (k + i))%nat by lia.
  apply H. lia.
Qed.

Lemma engine_ok_shift k m w w' :
  env w' = env w -> requests w' = (k + requests w)%nat ->
  engine_ok (k + m) w -> engine_ok m w'.
Proof.
  intros Ee Er H i Hi. rewrite Ee, Er.
  replace (k + requests w + i)%nat with (requests w + (k + i))%nat by lia.
  apply H. lia.
Qed.

Lemma engine_ok_ticks n m w :
  engine_ok n w -> engine_ok n (set_ticks m w).
Proof. intros H i Hi. apply (H i Hi). Qed.

Lemma engine_ok_page n p w :
  engine_ok n w -> engine_ok n (set_page p w).
Proof. intros H i Hi. apply (H i Hi). Qed.

Lemma openDB_ok w :
  engine (env w) (requests w) = None ->
  openDB w = (Resolved tt, settle 1 (the_store w) w).
Proof.
  intros H. unfold openDB, bind, engine_request, the_store, settle.
  rewrite H. destruct w as [e [s|] n t q p]; reflexivity.
Qed.

Lemma openDB_fails w e :
  engine (env w) (requests w) = Some e ->
  openDB w = (Rejected e, set_requests (S (requests w)) w).
Proof.
  intros H. unfold openDB, bind, engine_request. now rewrite H.
Qed.

(** A request the engine completes: the promise settles by the store
    operation, and the store keeps the operation's effect only if the
    transaction commits. *)
Lemma request_done {A} (op : objectStore -> (A + DOMException) * objectStore)
      k s w :
  engine (env w) (k + requests w) = None ->
  request op (settle k s w)
  = match op s with
    | (inl a, s') =>
        (Resolved a,
         settle (S k) (if commit (env w) (k + requests w) then s' else s) w)
    | (inr e, _) => (Rejected e, settle (S k) s w)
    end.
Proof.
  intros H. unfold request, engine_request, settle; simpl.
  rewrite H. destruct (op s) as [[a|e] s']; reflexivity.
Qed.

Lemma request_ok {A} (op : objectStore -> (A + DOMException) * objectStore)
      k s w :
  engine (env w) (k + requests w) = None ->
  commit (env w) (k + requests w) = true ->
  request op (settle k s w)
  = match op s with
    | (inl a, s') => (Resolved a, settle (S k) s' w)
    | (inr e, _) => (Rejected e, settle (S k) s w)
    end.
Proof.
  intros H Hc. rewrite request_done by exact H. now rewrite Hc.
Qed.

Lemma request_fails {A} (op : objectStore -> (A + DOMException) * objectStore)
      k s w e :
  engine (env w) (k + requests w) = Some e ->
  request op (settle k s w) = (Rejected e, settle (S k) s w).
Proof.
  intros H. unfold request, engine_request, settle; simpl.
  now rewrite H.
Qed.

Lemma transaction_settle k s w :
  transaction (settle k s w) = (Resolved tt, settle k s w).
Proof. reflexivity. Qed.

Lemma engine_ok_second n w :
  engine_ok (S (S n)) w -> engine (env w) (1 + requests w) = None.
Proof.
  intros H. specialize (H 1%nat). rewrite Nat.add_comm in H. apply H. lia.
Qed.

Lemma engine_ok_second_commit n w :
  engine_ok (S (S n)) w -> commit (env w) (1 + requests w) = true.
Proof.
  intros H. specialize (H 1%nat). rewrite Nat.add_comm in H. apply H. lia.
Qed.

Lemma if_same {A} (b : bool) (x : A) : (if b then x else x) = x.
Proof. now destruct b. Qed.

Lemma listAllFiles_ok w :
  engine_ok 2 w ->
  listAllFiles w = (Resolved (stored w), settle 2 (the_store w) w).
Proof.
  intros H. unfold listAllFiles, bind.
  rewrite (openDB_ok w (engine_ok_head _ _ H)), transaction_settle.
  rewrite request_ok
    by first [apply (engine_ok_second 0), H
             |apply (engine_ok_second_commit 0), H].
  unfold store_getAll. now rewrite stored_the_store.
Qed.

Lemma clearAll_ok w :
  engine_ok 2 w ->
  clearAll w = (Resolved tt, settle 2 (store_clear (the_store w)) w).
Proof.
  intros H. unfold clearAll, bind.
  rewrite (openDB_ok w (engine_ok_head _ _ H)), transaction_settle.
  now rewrite request_ok
    by first [apply (engine_ok_second 0), H
             |apply (engine_ok_second_commit 0), H].
Qed.

Lemma deleteFileById_ok v w :
  engine_ok 2 w -> Number v <> NaN ->
  deleteFileById v w
  = (Resolved tt, settle 2 (store_delete (Number v) (the_store w)) w).
Proof.
  intros H Hv. unfold deleteFileById, bind.
  rewrite (openDB_ok w (engine_ok_head _ _ H)), transaction_settle.
  destruct (Number v); try congruence;
    now rewrite request_ok
    by first [apply (engine_ok_second 0), H
             |apply (engine_ok_second_commit 0), H].
Qed.

Lemma getFileById_ok v w :
  engine_ok 2 w -> Number v <> NaN ->
  getFileById v w
  = (Resolved (store_get (Number v) (the_store w)), settle 2 (the_store w) w).
Proof.
  intros H Hv. unfold getFileById, bind.
  rewrite (openDB_ok w (engine_ok_head _ _ H)), transaction_settle.
  destruct (Number v); try congruence;
    now rewrite request_ok
    by first [apply (engine_ok_second 0), H
             |apply (engine_ok_second_commit 0), H].
Qed.

Lemma the_store_settle k s w : the_store (settle k s w) = s.
Proof. reflexivity. Qed.

Lemma stored_settle k s w : stored (settle k s w) = records s.
Proof. reflexivity. Qed.

(** ** The invariant holds in every reachable store *)

Lemma MAX_SAFE_eq : MAX_SAFE = 9007199254740992.
Proof. reflexivity. Qed.

Lemma createObjectStore_wf : store_wf createObjectStore.
Proof.
  repeat split; simpl; try (now constructor); rewrite ?MAX_SAFE_eq; lia.
Qed.

Lemma has_key_false k l :
  Forall (fun r => id r < k) l -> has_key k l = false.
Proof.
  induction 1 as [|r l Hr _ IH]; simpl; [reflexivity|].
  rewrite IH, orb_false_r. apply Z.eqb_neq. lia.
Qed.

Lemma put_record_last r l :
  Forall (fun r' => id r' < id r) l -> put_record r l = l ++ [r].
Proof.
  induction 1 as [|r' l Hr _ IH]; simpl; [reflexivity|].
  destruct (Z.ltb_spec (id r) (id r')); [lia|]. now rewrite IH.
Qed.

Lemma sorted_snoc l k :
  StronglySorted Z.lt l -> Forall (fun x => x < k) l ->
  StronglySorted Z.lt (l ++ [k]).
Proof.
  induction 1 as [|x l Hs IH Hx]; intros Hk; simpl.
  - repeat constructor.
  - inversion Hk; subst. constructor; [now apply IH|].
    apply Forall_app. split; [assumption|]. now repeat constructor.
Qed.

Lemma store_add_wf e s :
  store_wf s -> store_wf (snd (store_add e s)).
Proof.
  intros (Hs & Hr & Hk). unfold store_add.
  destruct (Z.ltb_spec MAX_SAFE (keygen s)); [now repeat split|].
  assert (Hlt : Forall (fun r => id r < keygen s) (records s))
    by (eapply Forall_impl; [|exact Hr]; simpl; intros; lia).
  rewrite (has_key_false _ _ Hlt). simpl.
  rewrite put_record_last by exact Hlt.
  rewrite MAX_SAFE_eq in *.
  split; [|split]; simpl; try lia.
  - rewrite map_app. simpl. apply sorted_snoc; [assumption|].
    now apply Forall_map.
  - apply Forall_app. split.
    + eapply Forall_impl; [|exact Hr]. simpl. intros. lia.
    + repeat constructor; simpl; lia.
Qed.

Lemma sorted_filter (f : Z -> bool) l :
  StronglySorted Z.lt l -> StronglySorted Z.lt (filter f l).
Proof.
  induction 1 as [|x l Hs IH Hx]; simpl; [constructor|].
  destruct (f x); [|assumption].
  constructor; [assumption|].
  apply Forall_forall. intros y Hy. apply filter_In in Hy.
  rewrite Forall_forall in Hx. now apply Hx.
Qed.

Lemma map_id_filter (f : Z -> bool) (l : list record) :
  map id (filter (fun r => f (id r)) l) = filter f (map id l).
Proof.
  induction l as [|r l IH]; simpl; [reflexivity|].
  destruct (f (id r)); simpl; now rewrite IH.
Qed.

Lemma store_delete_wf x s :
  store_wf s -> store_wf (store_delete x s).
Proof.
  intros (Hs & Hr & Hk). unfold store_delete.
  split; [|split]; simpl; [| |exact Hk].
  - destruct x as [k| |]; simpl.
    + rewrite (map_id_filter (fun z => negb (z =? k))).
      now apply sorted_filter.
    + rewrite (map_id_filter (fun _ => true)). now apply sorted_filter.
    + rewrite (map_id_filter (fun _ => true)). now apply sorted_filter.
  - apply Forall_forall. intros r Hin. apply filter_In in Hin.
    rewrite Forall_forall in Hr. now apply Hr.
Qed.

Lemma store_clear_wf s : store_wf s -> store_wf (store_clear s).
Proof.
  intros (_ & _ & Hk). split; [|split]; simpl; [constructor|constructor|exact Hk].
Qed.

(** Keys of a well-formed store are safe integers, and no two records
    share one. *)
Lemma store_wf_key_range s r :
  store_wf s -> In r (records s) -> 1 <= id r <= MAX_SAFE.
Proof.
  intros (_ & Hr & Hk) Hin. rewrite Forall_forall in Hr.
  specialize (Hr r Hin). lia.
Qed.

Lemma sorted_split (l : list record) k :
  StronglySorted Z.lt (map id l) -> In k (map id l) ->
  exists l1 r l2,
    l = l1 ++ r :: l2 /\ id r = k
    /\ filter (fun r' => negb (id r' =? k)) l = l1 ++ l2.
Proof.
  induction l as [|r l IH]; simpl; [intros _ []|].
  intros Hs Hin. inversion Hs as [|? ? Hs' Hall]; subst.
  destruct (Z.eqb_spec (id r) k) as [Heq|Hne].
  - exists [], r, l. repeat split; simpl; try assumption.
    clear IH Hin Hs Hs'. rewrite Forall_forall in Hall.
    induction l as [|r' l IH]; simpl; [reflexivity|].
    destruct (Z.eqb_spec (id r') k) as [E|_].
    + specialize (Hall (id r') (or_introl eq_refl)). lia.
    + simpl. f_equal. apply IH. intros y Hy. apply Hall. now right.
  - destruct Hin as [Heq|Hin]; [contradiction|].
    destruct (IH Hs' Hin) as (l1 & r0 & l2 & E1 & E2 & E3).
    exists (r :: l1), r0, l2. simpl. now rewrite E1 at 1; rewrite E3.
Qed.

Lemma find_deleted k (l : list record) :
  find (key_matches (Int k))
       (filter (fun r => negb (key_matches (Int k) r)) l) = None.
Proof.
  induction l as [|r l IH]; simpl; [reflexivity|].
  destruct (id r =? k) eqn:E; simpl; [assumption|]. now rewrite E.
Qed.

Lemma filter_absent k (l : list record) :
  ~ In k (map id l) ->
  filter (fun r => negb (key_matches (Int k) r)) l = l.
Proof.
  induction l as [|r l IH]; simpl; [reflexivity|].
  intros Hn. destruct (Z.eqb_spec (id r) k) as [E|_]; simpl.
  - exfalso. apply Hn. now left.
  - f_equal. apply IH. intros H. apply Hn. now right.
Qed.

Lemma filter_twice {A} (f : A -> bool) (l : list A) :
  filter f (filter f l) = filter f l.
Proof.
  induction l as [|a l IH]; simpl; [reflexivity|].
  destruct (f a) eqn:E; simpl; [rewrite E|]; now rewrite IH.
Qed.

Lemma preserves_bind {A B} (m : promise A) (k : A -> promise B) :
  preserves m -> (forall a, preserves (k a)) -> preserves (bind m k).
Proof.
  intros Hm Hk w Hw. unfold bind. specialize (Hm w Hw).
  destruct (m w) as [[a|e] w']; simpl in *; [now apply Hk|assumption].
Qed.

Lemma preserves_frame {A} (f : world -> A) (g : world -> world) :
  (forall w, database (g w) = database w) ->
  preserves (fun w => (Resolved (f w), g w)).
Proof.
  intros Hg w Hw. unfold world_wf, the_store in *. simpl. now rewrite Hg.
Qed.

Lemma preserves_reject {A} e : preserves (@reject A e).
Proof. intros w Hw. exact Hw. Qed.

Lemma preserves_engine_request : preserves engine_request.
Proof.
  intros w Hw. unfold engine_request.
  destruct (engine (env w) (requests w)); exact Hw.
Qed.

Lemma preserves_openDB : preserves openDB.
Proof.
  intros w Hw. unfold openDB, bind, engine_request.
  destruct (engine (env w) (requests w)); simpl; [exact Hw|].
  unfold world_wf, the_store in *.
  destruct w as [e [s|] n t q p]; simpl in *; exact Hw.
Qed.

Lemma preserves_transaction : preserves transaction.
Proof.
  intros w Hw. unfold transaction. destruct (database w); exact Hw.
Qed.

Lemma preserves_request {A}
      (op : objectStore -> (A + DOMException) * objectStore) :
  (forall s, store_wf s -> store_wf (snd (op s))) -> preserves (request op).
Proof.
  intros Hop w Hw. unfold request, engine_request.
  destruct (database w) as [s|] eqn:E; [|exact Hw].
  destruct (engine (env w) (requests w)); simpl.
  - unfold world_wf, the_store in *. simpl. now rewrite E in *.
  - assert (Hs : store_wf s)
      by (unfold world_wf, the_store in Hw; now rewrite E in Hw).
    specialize (Hop s Hs). destruct (op s) as [[a|e] s']; simpl in *.
    + unfold world_wf, the_store. simpl.
      now destruct (commit (env w) (requests w)).
    + unfold world_wf, the_store in *. simpl. now rewrite E in *.
Qed.

Lemma preserves_addFileEntry f : preserves (addFileEntry f).
Proof.
  unfold addFileEntry.
  apply preserves_bind; [apply preserves_openDB|intros _].
  apply preserves_bind; [apply preserves_transaction|intros _].
  apply preserves_bind; [now apply preserves_frame|intros now].
  apply preserves_request. intros s Hs. now apply store_add_wf.
Qed.

Lemma preserves_listAllFiles : preserves listAllFiles.
Proof.
  unfold listAllFiles.
  apply preserves_bind; [apply preserves_openDB|intros _].
  apply preserves_bind; [apply preserves_transaction|intros _].
  now apply preserves_request.
Qed.

Lemma preserves_getFileById v : preserves (getFileById v).
Proof.
  unfold getFileById.
  apply preserves_bind; [apply preserves_openDB|intros _].
  apply preserves_bind; [apply preserves_transaction|intros _].
  destruct (Number v); try apply preserves_reject;
    now apply preserves_request.
Qed.

Lemma preserves_deleteFileById v : preserves (deleteFileById v).
Proof.
  unfold deleteFileById.
  apply preserves_bind; [apply preserves_openDB|intros _].
  apply preserves_bind; [apply preserves_transaction|intros _].
  destruct (Number v); try apply preserves_reject;
    apply preserves_request; intros s Hs; now apply store_delete_wf.
Qed.

Lemma preserves_clearAll : preserves clearAll.
Proof.
  unfold clearAll.
  apply preserves_bind; [apply preserves_openDB|intros _].
  apply preserves_bind; [apply preserves_transaction|intros _].
  apply preserves_request. intros s Hs. now apply store_clear_wf.
Qed.

(** ** Delete, lookup and clear *)

(** C2. In a reachable store that holds a record with key [k], and when
    the engine completes the requests, [deleteFileById(id)] for an [id]
    that [Number] maps to [k] resolves and removes that one record, the
    records before and after it staying as they were and in place; a
    [getFileById] with the same id then resolves with no record. *)
Theorem delete_removes_exactly_that_record :
  forall (w : world) (v : jsval) (k : Z),
    world_wf w ->
    Number v = Int k ->
    In k (map id (stored w)) ->
    engine_ok 4 w ->
    exists w1 w2 l1 r l2,
      deleteFileById v w = (Resolved tt, w1)
      /\ stored w = l1 ++ r :: l2
      /\ id r = k
      /\ stored w1 = l1 ++ l2
      /\ ~ In k (map id (stored w1))
      /\ getFileById v w1 = (Resolved None, w2).
Proof.
  intros w v k Hwf Hv Hin Hok.
  assert (Hnan : Number v <> NaN) by (rewrite Hv; discriminate).
  destruct Hwf as (Hs & _ & _). rewrite stored_the_store in Hs.
  destruct (sorted_split _ _ Hs Hin) as (l1 & r & l2 & E1 & E2 & E3).
  pose (w1 := settle 2 (store_delete (Number v) (the_store w)) w).
  assert (Hst : stored w1 = l1 ++ l2).
  { unfold w1. rewrite stored_settle, Hv. simpl.
    rewrite stored_the_store. exact E3. }
  exists w1, (settle 2 (the_store w1) w1), l1, r, l2.
  split; [|split; [|split; [|split; [|split]]]]; try assumption.
  - apply deleteFileById_ok; [|assumption].
    apply (engine_ok_weaken 4 2); [lia|assumption].
  - rewrite Hst. intros Hk. rewrite E1 in Hs.
    rewrite map_app in Hs, Hk. simpl in Hs.
    clear - Hs Hk E2. induction l1 as [|a l1 IH]; simpl in *.
    + inversion Hs as [|? ? _ Hall]; subst.
      rewrite Forall_forall in Hall. specialize (Hall _ Hk). lia.
    + inversion Hs as [|? ? Hs' Hall]; subst.
      destruct Hk as [Hk|Hk]; [|now apply IH].
      rewrite Forall_forall in Hall.
      assert (In (id r) (map id l1 ++ id r :: map id l2))
        by (apply in_or_app; right; now left).
      specialize (Hall _ H). lia.
  - rewrite getFileById_ok; [|now apply (engine_ok_settle 2 2)|assumption].
    f_equal. f_equal. unfold w1. rewrite the_store_settle, Hv.
    unfold store_get, store_delete. simpl. apply find_deleted.
Qed.

(** C3. Whatever the store held, when the engine completes the requests
    [clearAll()] resolves and the [listAllFiles()] after it resolves with
    the empty array. *)
Theorem clearAll_then_list_is_empty :
  forall w : world,
    engine_ok 4 w ->
    exists w1 w2,
      clearAll w = (Resolved tt, w1)
      /\ listAllFiles w1 = (Resolved [], w2).
Proof.
  intros w Hok.
  exists (settle 2 (store_clear (the_store w)) w).
  eexists. split.
  - apply clearAll_ok. apply (engine_ok_weaken 4 2); [lia|assumption].
  - rewrite listAllFiles_ok by now apply (engine_ok_settle 2 2).
    reflexivity.
Qed.

(** C4. For every integer id [k], when the engine completes the requests
    [deleteFileById(k)] resolves; if no record has that id the records are
    as before; and a second [deleteFileById(k)] resolves too and leaves the
    database exactly as the first call left it. *)
Theorem delete_absent_is_no_error :
  forall (w : world) (k : Z),
    engine_ok 2 w ->
    exists w1,
      deleteFileById (VNum (Int k)) w = (Resolved tt, w1)
      /\ (~ In k (map id (stored w)) -> stored w1 = stored w)
      /\ (engine_ok 2 w1 ->
          exists w2,
            deleteFileById (VNum (Int k)) w1 = (Resolved tt, w2)
            /\ database w2 = database w1).
Proof.
  intros w k Hok.
  exists (settle 2 (store_delete (Int k) (the_store w)) w).
  split; [|split].
  - now apply (deleteFileById_ok (VNum (Int k))).
  - intros Hn. rewrite stored_settle. simpl.
    rewrite stored_the_store. now apply filter_absent.
  - intros Hok'. eexists. split.
    + now apply (deleteFileById_ok (VNum (Int k))).
    + simpl. unfold store_delete. simpl. now rewrite filter_twice.
Qed.

(** A value that [Number] maps to NaN is no key: the call rejects with
    DataError once the database is open. *)
Lemma deleteFileById_not_a_number v w :
  Number v = NaN -> engine_ok 1 w ->
  deleteFileById v w = (Rejected DataError, settle 1 (the_store w) w).
Proof.
  intros Hv Hok. unfold deleteFileById, bind.
  rewrite (openDB_ok w (engine_ok_head _ _ Hok)), transaction_settle.
  now rewrite Hv.
Qed.

(** ** Uploading *)

(** All the ways addFileEntry can go. *)
Lemma addFileEntry_run f w :
  addFileEntry f w =
  match engine (env w) (requests w) with
  | Some e => (Rejected e, set_requests (S (requests w)) w)
  | None =>
      let w1 := set_ticks (S (ticks w)) w in
      match engine (env w) (1 + requests w) with
      | Some e => (Rejected e, settle 2 (the_store w) w1)
      | None =>
          match store_add (entry_of f w) (the_store w) with
          | (inl k, s') =>
              (Resolved k,
               settle 2 (if commit (env w) (1 + requests w)
                         then s' else the_store w) w1)
          | (inr e, _) => (Rejected e, settle 2 (the_store w) w1)
          end
      end
  end.
Proof.
  unfold addFileEntry, bind.
  destruct (engine (env w) (requests w)) as [e|] eqn:E0.
  - now rewrite (openDB_fails w e E0).
  - rewrite (openDB_ok w E0), transaction_settle.
    unfold Date_now.
    change (set_ticks (S (ticks (settle 1 (the_store w) w)))
                      (settle 1 (the_store w) w))
      with (settle 1 (the_store w) (set_ticks (S (ticks w)) w)).
    change (clock (env (settle 1 (the_store w) w))
                  (ticks (settle 1 (the_store w) w)))
      with (clock (env w) (ticks w)).
    fold (entry_of f w). simpl.
    destruct (engine (env w) (S (requests w))) as [e|] eqn:E1.
    + now rewrite request_fails with (e := e).
    + now rewrite request_done.
Qed.

(** A call that rejects leaves the records, the key generator and the page
    as they were. *)
Lemma addFileEntry_rejected f w e w' :
  addFileEntry f w = (Rejected e, w') ->
  stored w' = stored w /\ the_store w' = the_store w /\ page w' = page w
  /\ env w' = env w /\ (requests w' <= 2 + requests w)%nat.
Proof.
  rewrite addFileEntry_run.
  destruct (engine (env w) (requests w)) as [e0|].
  - intros H; inversion H; subst. unfold stored, the_store. simpl.
    repeat split; lia.
  - simpl. destruct (engine (env w) (S (requests w))) as [e1|].
    + intros H; inversion H; subst. rewrite stored_settle.
      rewrite stored_the_store. repeat split; simpl; lia.
    + destruct (store_add (entry_of f w) (the_store w)) as [[k|e2] s'];
        intros H; inversion H; subst.
      rewrite stored_settle, stored_the_store. repeat split; simpl; lia.
Qed.

(** A call that resolves returns the generated key; the new record is
    in the store if the transaction has committed, and otherwise the store
    and its key generator are as before. *)
Lemma addFileEntry_resolved f w k w' :
  addFileEntry f w = (Resolved k, w') ->
  k = keygen (the_store w)
  /\ w' = settle 2 (if commit (env w) (1 + requests w)
                    then {| records := put_record (with_key k (entry_of f w))
                                                  (stored w);
                            keygen := k + 1 |}
                    else the_store w)
                 (set_ticks (S (ticks w)) w).
Proof.
  rewrite addFileEntry_run.
  destruct (engine (env w) (requests w)) as [e0|]; [discriminate|].
  simpl. destruct (engine (env w) (S (requests w))) as [e1|]; [discriminate|].
  unfold store_add.
  destruct (MAX_SAFE <? keygen (the_store w)); [discriminate|].
  destruct (has_key (keygen (the_store w)) (records (the_store w)));
    [discriminate|].
  intros H; inversion H; subst. now rewrite stored_the_store.
Qed.

Lemma addFileEntry_ok f w :
  engine_ok 2 w ->
  keygen (the_store w) <= MAX_SAFE ->
  Forall (fun r => id r < keygen (the_store w)) (stored w) ->
  addFileEntry f w
  = (Resolved (keygen (the_store w)),
     settle 2 {| records := stored w
                            ++ [with_key (keygen (the_store w)) (entry_of f w)];
                 keygen := keygen (the_store w) + 1 |}
            (set_ticks (S (ticks w)) w)).
Proof.
  intros Hok Hk Hall. rewrite addFileEntry_run.
  rewrite (engine_ok_head _ _ Hok), (engine_ok_second _ _ Hok),
    (engine_ok_second_commit _ _ Hok). simpl.
  unfold store_add. destruct (Z.ltb_spec MAX_SAFE (keygen (the_store w))); [lia|].
  rewrite stored_the_store, (has_key_false _ _ Hall).
  now rewrite put_record_last.
Qed.

Lemma keys_from_bounds k n x : In x (keys_from k n) -> k <= x < k + Z.of_nat n.
Proof.
  revert k. induction n as [|n IH]; simpl; intros k; [intros []|].
  intros [E|Hin]; [lia|]. specialize (IH _ Hin). lia.
Qed.

Lemma keys_from_NoDup k n : NoDup (keys_from k n).
Proof.
  revert k. induction n as [|n IH]; simpl; intros k; constructor.
  - intros Hin. apply keys_from_bounds in Hin. lia.
  - apply IH.
Qed.

Lemma keys_from_length k n : List.length (keys_from k n) = n.
Proof. revert k. induction n; simpl; intros; [|rewrite IHn]; reflexivity. Qed.

(** What a completed loop has done when the engine has completed and
    committed its requests: one record per file, appended in upload order
    under consecutive keys, each carrying its file's name, type and size
    and the file itself. *)
Lemma upload_each_resolved files :
  forall w w',
    engine_ok (2 * List.length files) w ->
    Forall (fun r => id r < keygen (the_store w)) (stored w) ->
    upload_each files w = (Resolved tt, w') ->
    exists news,
      stored w' = stored w ++ news
      /\ map id news = keys_from (keygen (the_store w)) (List.length files)
      /\ map name news = map file_name files
      /\ map type news = map file_type files
      /\ map size news = map file_size files
      /\ map blob news = files
      /\ page w' = page w /\ env w' = env w
      /\ requests w' = (2 * List.length files + requests w)%nat.
Proof.
  induction files as [|f files IH]; intros w w' Hok Hall H.
  - inversion H; subst. exists []. rewrite app_nil_r. now repeat split.
  - simpl in H. unfold bind in H.
    destruct (addFileEntry f w) as [[k|e] w1] eqn:Ef; [|discriminate].
    destruct (addFileEntry_resolved _ _ _ _ Ef) as (Hk & Hw1).
    assert (Hok2 : engine_ok 2 w)
      by (eapply engine_ok_weaken; [|exact Hok]; simpl; lia).
    rewrite (engine_ok_second_commit _ _ Hok2) in Hw1.
    rewrite put_record_last in Hw1 by (simpl; now subst k).
    assert (Hall1 : Forall (fun r => id r < keygen (the_store w1)) (stored w1)).
    { subst w1. rewrite stored_settle, the_store_settle. simpl.
      apply Forall_app. split.
      - eapply Forall_impl; [|exact Hall]. simpl. intros. lia.
      - repeat constructor. simpl. lia. }
    assert (Hok1 : engine_ok (2 * List.length files) w1).
    { subst w1. apply engine_ok_settle, engine_ok_ticks.
      eapply engine_ok_weaken; [|exact Hok]. simpl. lia. }
    destruct (IH w1 w' Hok1 Hall1 H)
      as (news & E & Eid & En & Et & Es & Eb & Ep & Ee & Er).
    exists (with_key k (entry_of f w) :: news).
    subst w1. rewrite stored_settle, the_store_settle in *. simpl in *.
    rewrite <- app_assoc in E. simpl in E. subst k.
    repeat split; try congruence; lia.
Qed.

(** The loop does complete when the engine completes the requests and the
    key generator has room. *)
Lemma upload_each_total files :
  forall w,
    engine_ok (2 * List.length files) w ->
    keygen (the_store w) + Z.of_nat (List.length files) <= MAX_SAFE + 1 ->
    Forall (fun r => id r < keygen (the_store w)) (stored w) ->
    exists w', upload_each files w = (Resolved tt, w').
Proof.
  induction files as [|f files IH]; intros w Hok Hk Hall.
  - now exists w.
  - simpl List.length in *. simpl upload_each. unfold bind.
    rewrite addFileEntry_ok;
      [|eapply engine_ok_weaken; [|exact Hok]; lia|lia|assumption].
    apply IH.
    + apply engine_ok_settle. apply engine_ok_ticks.
      eapply engine_ok_weaken; [|exact Hok]. lia.
    + rewrite the_store_settle. cbn [keygen]. lia.
    + rewrite stored_settle, the_store_settle. simpl.
      apply Forall_app. split.
      * eapply Forall_impl; [|exact Hall]. simpl. intros. lia.
      * repeat constructor. simpl. lia.
Qed.

(** C1. Files uploaded one after the other by [addFileEntry] into an
    empty store, the engine completing and committing every request and
    the key generator having room: every call resolves, and
    [listAllFiles()] then resolves with exactly one record per file, the
    records' names, types and sizes being those of the files, in upload
    order, and their ids pairwise distinct. *)
Theorem upload_then_list_all :
  forall (files : list File) (w : world),
    stored w = [] ->
    engine_ok (2 * List.length files + 2) w ->
    keygen (the_store w) + Z.of_nat (List.length files) <= MAX_SAFE + 1 ->
    exists w' recs w'',
      upload_each files w = (Resolved tt, w')
      /\ listAllFiles w' = (Resolved recs, w'')
      /\ List.length recs = List.length files
      /\ map name recs = map file_name files
      /\ map type recs = map file_type files
      /\ map size recs = map file_size files
      /\ NoDup (map id recs).
Proof.
  intros files w Hempty Hok Hroom.
  assert (Hall : Forall (fun r => id r < keygen (the_store w)) (stored w))
    by (rewrite Hempty; constructor).
  assert (Hok' : engine_ok (2 * List.length files) w)
    by (eapply engine_ok_weaken; [|exact Hok]; lia).
  destruct (upload_each_total files w Hok' Hroom Hall) as [w' Hup].
  destruct (upload_each_resolved files w w' Hok' Hall Hup)
    as (news & E & Eid & En & Et & Es & _ & _ & Ee & Er).
  rewrite Hempty in E. simpl in E.
  exists w', (stored w'), (settle 2 (the_store w') w').
  split; [exact Hup|].
  split.
  { apply listAllFiles_ok.
    apply (engine_ok_shift (2 * List.length files) 2 w); assumption. }
  rewrite E. repeat split; try assumption.
  - rewrite <- (length_map name), En. apply length_map.
  - rewrite Eid. apply keys_from_NoDup.
Qed.

(** The gateway never looks at the page. *)
Lemma addFileEntry_page f p w :
  addFileEntry f (set_page p w)
  = (fst (addFileEntry f w), set_page p (snd (addFileEntry f w))).
Proof.
  rewrite !addFileEntry_run. simpl.
  change (entry_of f (set_page p w)) with (entry_of f w).
  change (the_store (set_page p w)) with (the_store w).
  destruct (engine (env w) (requests w)); [reflexivity|].
  destruct (engine (env w) (S (requests w))); [reflexivity|].
  destruct (store_add (entry_of f w) (the_store w)) as [[k|e] s'];
    reflexivity.
Qed.

Lemma upload_each_page files p :
  forall w,
    upload_each files (set_page p w)
    = (fst (upload_each files w), set_page p (snd (upload_each files w))).
Proof.
  induction files as [|f files IH]; intros w; [reflexivity|].
  simpl. unfold bind. rewrite addFileEntry_page.
  destruct (addFileEntry f w) as [[k|e] w1]; simpl; [apply IH|reflexivity].
Qed.

Lemma upload_each_app l1 l2 w :
  upload_each (l1 ++ l2) w = (upload_each l1 ;; upload_each l2) w.
Proof.
  revert w. induction l1 as [|f l1 IH]; intros w; [reflexivity|].
  simpl. unfold bind in *.
  destruct (addFileEntry f w) as [[k|e] w1]; [apply IH|reflexivity].
Qed.

Lemma append_empty (s : string) : (s ++ EmptyString)%string = s.
Proof. induction s as [|c s IH]; simpl; [|rewrite IH]; reflexivity. Qed.

(** The alert of the catch block quotes the error's message. *)
Lemma upload_alert_quotes_message err :
  exists a b : string,
    ("Upload failed: " ++ message_or_error err)%string
    = (a ++ err_message err ++ b)%string.
Proof.
  unfold message_or_error. destruct (err_message err) as [|c m].
  - exists ("Upload failed: " ++ err_name err)%string, EmptyString.
    simpl. now rewrite append_empty.
  - exists "Upload failed: "%string, EmptyString.
    now rewrite append_empty.
Qed.

(** With a selection the handler is the guarded upload. *)
Lemma uploadBtn_click_selection w :
  fileInput_files (page w) <> [] ->
  uploadBtn_click w
  = try_finally (upload_try (fileInput_files (page w)))
                (fun w' => set_page (upload_end (page w')) w')
                (set_page (upload_begin (page w)) w).
Proof.
  intros Hne. unfold uploadBtn_click.
  destruct (fileInput_files (page w)); [contradiction|reflexivity].
Qed.

(** C7, for the failures the script can see.  The handler is clicked
    with the selection [pre ++ fk :: post]; the [addFileEntry] calls for
    the files of [pre] resolve and the call for [fk] rejects with [e] (its
    [open] or its [add] request fails).  Then the handler ends with the
    records exactly as they were when [fk] was tried (what [pre] left is
    kept, nothing of [fk] or [post] is stored), it has sent the engine no
    request after the failed one, and it has shown one alert, whose text
    contains [e]'s message; the selection is kept and the button is
    enabled again.  A transaction aborted after its request succeeded is
    not such a failure, and the script does not notice it. *)
Theorem upload_failure_aborts_the_rest :
  forall (w : world) (pre post : list File) (fk : File)
         (w1 w2 : world) (e : DOMException),
    fileInput_files (page w) = pre ++ fk :: post ->
    upload_each pre w = (Resolved tt, w1) ->
    addFileEntry fk w1 = (Rejected e, w2) ->
    exists w',
      uploadBtn_click w = (Resolved tt, w')
      /\ stored w' = stored w1
      /\ requests w' = requests w2
      /\ alerts (page w')
         = alerts (page w) ++ [("Upload failed: " ++ message_or_error e)%string]
      /\ (exists a b : string,
             ("Upload failed: " ++ message_or_error e)%string
             = (a ++ err_message e ++ b)%string)
      /\ console (page w') = console (page w) ++ [e]
      /\ fileInput_files (page w') = fileInput_files (page w)
      /\ uploadBtn_disabled (page w') = false.
Proof.
  intros w pre post fk w1 w2 e Hsel Hpre Hfk.
  destruct (addFileEntry_rejected _ _ _ _ Hfk) as (Hst & _).
  rewrite uploadBtn_click_selection by (rewrite Hsel; now destruct pre).
  rewrite Hsel.
  unfold try_finally, upload_try, try_catch.
  set (p0 := upload_begin (page w)).
  unfold bind at 1. rewrite upload_each_app. unfold bind at 1.
  rewrite upload_each_page, Hpre. simpl fst. simpl snd.
  simpl upload_each. unfold bind at 1.
  rewrite addFileEntry_page, Hfk. simpl fst. simpl snd.
  eexists. split; [reflexivity|].
  subst p0. simpl.
  repeat split; try reflexivity.
  - exact Hst.
  - apply upload_alert_quotes_message.
  - exact Hsel.
Qed.

(** ** The upload button *)

Lemma page_kept_any {A B} (proj : dom -> B) (m : promise A) :
  page_kept m -> kept proj m.
Proof. intros H w. now rewrite H. Qed.

Lemma kept_bind {A B C} (proj : dom -> C)
      (m : promise A) (k : A -> promise B) :
  kept proj m -> (forall a, kept proj (k a)) -> kept proj (bind m k).
Proof.
  intros Hm Hk w. unfold bind. specialize (Hm w).
  destruct (m w) as [[a|e] w']; simpl in *; [|assumption].
  now rewrite Hk.
Qed.

Lemma kept_catch {A C} (proj : dom -> C) (m : promise A) h :
  kept proj m -> (forall e, kept proj (h e)) -> kept proj (try_catch m h).
Proof.
  intros Hm Hh w. unfold try_catch. specialize (Hm w).
  destruct (m w) as [[a|e] w']; simpl in *; [assumption|].
  now rewrite Hh.
Qed.

Lemma kept_update {C} (proj : dom -> C) f :
  (forall p, proj (f p) = proj p) -> kept proj (update f).
Proof. intros H w. apply H. Qed.

Lemma kept_detach {A C} (proj : dom -> C) (m : promise A) :
  (forall l p, proj (set_unhandled l p) = proj p) ->
  kept proj m -> kept proj (detach m).
Proof.
  intros Hu Hm w. unfold detach. specialize (Hm w).
  destruct (m w) as [[a|e] w']; simpl in *; [assumption|].
  now rewrite Hu.
Qed.

Lemma page_kept_bind {A B} (m : promise A) (k : A -> promise B) :
  page_kept m -> (forall a, page_kept (k a)) -> page_kept (bind m k).
Proof.
  intros Hm Hk w. unfold bind. specialize (Hm w).
  destruct (m w) as [[a|e] w']; simpl in *; [|assumption].
  now rewrite Hk.
Qed.

Lemma page_kept_openDB : page_kept openDB.
Proof.
  intros w. unfold openDB, bind, engine_request.
  destruct (engine (env w) (requests w)); [reflexivity|].
  simpl. now destruct (database w).
Qed.

Lemma page_kept_transaction : page_kept transaction.
Proof. intros w. unfold transaction. now destruct (database w). Qed.

Lemma page_kept_request {A}
      (op : objectStore -> (A + DOMException) * objectStore) :
  page_kept (request op).
Proof.
  intros w. unfold request, engine_request.
  destruct (database w) as [s|]; [|reflexivity].
  destruct (engine (env w) (requests w)); [reflexivity|].
  now destruct (op s) as [[a|e] s'].
Qed.

Lemma page_kept_addFileEntry f : page_kept (addFileEntry f).
Proof.
  unfold addFileEntry.
  apply page_kept_bind; [apply page_kept_openDB|intros _].
  apply page_kept_bind; [apply page_kept_transaction|intros _].
  apply page_kept_bind; [now intros w|intros now].
  apply page_kept_request.
Qed.

Lemma page_kept_upload_each files : page_kept (upload_each files).
Proof.
  induction files as [|f files IH]; [now intros w|].
  simpl. apply page_kept_bind; [apply page_kept_addFileEntry|].
  intros _. exact IH.
Qed.

Lemma page_kept_listAllFiles : page_kept listAllFiles.
Proof.
  unfold listAllFiles.
  apply page_kept_bind; [apply page_kept_openDB|intros _].
  apply page_kept_bind; [apply page_kept_transaction|intros _].
  apply page_kept_request.
Qed.

Lemma page_kept_deleteFileById v : page_kept (deleteFileById v).
Proof.
  unfold deleteFileById.
  apply page_kept_bind; [apply page_kept_openDB|intros _].
  apply page_kept_bind; [apply page_kept_transaction|intros _].
  destruct (Number v); try (now intros w); apply page_kept_request.
Qed.

Lemma page_kept_clearAll : page_kept clearAll.
Proof.
  unfold clearAll.
  apply page_kept_bind; [apply page_kept_openDB|intros _].
  apply page_kept_bind; [apply page_kept_transaction|intros _].
  apply page_kept_request.
Qed.

(** renderList changes the children of [#fileList] and nothing else. *)
Lemma kept_renderList {C} (proj : dom -> C) :
  (forall l p, proj (set_children l p) = proj p) -> kept proj renderList.
Proof.
  intros Hc. unfold renderList.
  apply kept_bind; [now apply kept_update|intros _].
  apply kept_bind;
    [apply page_kept_any, page_kept_listAllFiles|intros all].
  destruct all; now apply kept_update.
Qed.

Lemma button_kept_upload_try files :
  kept uploadBtn_disabled (upload_try files).
Proof.
  unfold upload_try. apply kept_catch.
  - apply kept_bind;
      [apply page_kept_any, page_kept_upload_each|intros _].
    apply kept_bind; [now apply kept_update|intros _].
    now apply kept_renderList.
  - intros e. apply kept_bind; [|intros _]; now apply kept_update.
Qed.

(** C9. A click with a selection disables the button before the first
    file is tried; the button stays disabled after every file of the loop
    and up to the end of the try/catch; the cleanup, which runs on
    whatever the try/catch left, enables it: the handler ends idle, in
    success and in failure.  A click in the idle state ends idle in every
    case, the refused empty selection included. *)
Theorem upload_button_idle_uploading_idle :
  forall w : world,
    let files := fileInput_files (page w) in
    let w0 := set_page (upload_begin (page w)) w in
    (files <> [] ->
       phase_of w0 = uploading
       /\ (forall n, phase_of (snd (upload_each (firstn n files) w0))
                     = uploading)
       /\ phase_of (snd (upload_try files w0)) = uploading
       /\ snd (uploadBtn_click w)
          = set_page (upload_end (page (snd (upload_try files w0))))
                     (snd (upload_try files w0))
       /\ phase_of (snd (uploadBtn_click w)) = idle)
    /\ (phase_of w = idle -> phase_of (snd (uploadBtn_click w)) = idle).
Proof.
  intros w files w0.
  assert (Hrun : files <> [] ->
                 snd (uploadBtn_click w)
                 = set_page (upload_end (page (snd (upload_try files w0))))
                            (snd (upload_try files w0))).
  { intros Hne. rewrite uploadBtn_click_selection by exact Hne.
    unfold try_finally. fold files. fold w0.
    now destruct (upload_try files w0). }
  split.
  - intros Hne. split; [reflexivity|]. split; [|split; [|split]].
    + intros n. unfold phase_of.
      now rewrite page_kept_upload_each.
    + unfold phase_of. now rewrite button_kept_upload_try.
    + now apply Hrun.
    + now rewrite Hrun.
  - intros Hidle. destruct files as [|f fs] eqn:E.
    + unfold uploadBtn_click. fold files. rewrite E. exact Hidle.
    + rewrite Hrun by discriminate. reflexivity.
Qed.

(** ** The list renderer *)

Lemma sort_insert_perm {A} (cmp : A -> A -> Z) x l :
  Permutation (sort_insert cmp x l) (x :: l).
Proof.
  induction l as [|y l IH]; simpl; [reflexivity|].
  destruct (cmp x y <=? 0); [reflexivity|].
  rewrite IH. apply perm_swap.
Qed.

Lemma Array_sort_perm {A} (cmp : A -> A -> Z) l :
  Permutation (Array_sort cmp l) l.
Proof.
  induction l as [|x l IH]; simpl; [reflexivity|].
  rewrite sort_insert_perm. now constructor.
Qed.

Lemma sort_insert_newest_first x l :
  StronglySorted not_older l ->
  StronglySorted not_older (sort_insert newest_first x l).
Proof.
  induction 1 as [|y l Hs IH Hy]; simpl; [repeat constructor|].
  unfold newest_first at 1.
  destruct (Z.leb_spec (added y - added x) 0) as [Hle|Hgt].
  - constructor; [now constructor|].
    constructor; [unfold not_older; lia|].
    eapply Forall_impl; [|exact Hy]. unfold not_older. intros; lia.
  - constructor; [assumption|].
    eapply Permutation_Forall; [symmetry; apply sort_insert_perm|].
    constructor; [unfold not_older; lia|assumption].
Qed.

Lemma Array_sort_newest_first l :
  StronglySorted not_older (Array_sort newest_first l).
Proof.
  induction l as [|x l IH]; simpl; [constructor|].
  now apply sort_insert_newest_first.
Qed.

Lemma Array_sort_three r1 r2 r3 :
  added r1 < added r2 < added r3 ->
  Array_sort newest_first [r1; r2; r3] = [r3; r2; r1].
Proof.
  intros H. simpl. unfold newest_first.
  destruct (Z.leb_spec (added r3 - added r2) 0); [lia|]. simpl.
  destruct (Z.leb_spec (added r3 - added r1) 0); [lia|].
  destruct (Z.leb_spec (added r2 - added r1) 0); [lia|]. reflexivity.
Qed.

Lemma renderList_ok w :
  engine_ok 2 w ->
  renderList w
  = (Resolved tt,
     set_page
       (set_children
          match stored w with
          | [] => [EmptyNote "No files stored. Upload using the control above."]
          | all => map createFileRow (Array_sort newest_first all)
          end (page w))
       (settle 2 (the_store w) w)).
Proof.
  intros Hok. unfold renderList, bind at 1, update at 1.
  unfold bind.
  rewrite listAllFiles_ok by (apply engine_ok_page; exact Hok).
  change (stored (set_page (set_children [] (page w)) w)) with (stored w).
  destruct (stored w); reflexivity.
Qed.

(** C5. When the engine completes the requests and the store is not
    empty, [renderList()] resolves with [#fileList] holding one row per
    stored record and no other child, the rows in descending order of
    [added]; records stored with [added] t1 < t2 < t3 are rendered in the
    order t3, t2, t1. *)
Theorem renderList_newest_first :
  forall w : world,
    engine_ok 2 w ->
    stored w <> [] ->
    exists w' rows,
      renderList w = (Resolved tt, w')
      /\ fileList_children (page w') = map createFileRow rows
      /\ Permutation rows (stored w)
      /\ StronglySorted not_older rows
      /\ (forall r1 r2 r3,
             stored w = [r1; r2; r3] ->
             added r1 < added r2 < added r3 ->
             rows = [r3; r2; r1]).
Proof.
  intros w Hok Hne. eexists. exists (Array_sort newest_first (stored w)).
  split; [now apply renderList_ok|].
  split; [|split; [|split]].
  - simpl. destruct (stored w); [contradiction|reflexivity].
  - apply Array_sort_perm.
  - apply Array_sort_newest_first.
  - intros r1 r2 r3 E H. rewrite E. now apply Array_sort_three.
Qed.

(** ** humanSize *)

Lemma toFixed1_below_1e21 n q :
  n < 1000000000000000000000 * q ->
  toFixed1 n q
  = (ToString (tenths n q / 10) ++ "." ++ ToString (tenths n q mod 10))%string.
Proof.
  intros H. unfold toFixed1.
  destruct (Z.ltb_spec n (1000000000000000000000 * q)); [reflexivity|lia].
Qed.

Lemma toFixed1_one_decimal n q :
  0 <= n -> 0 < q -> n < 1000000000000000000000 * q ->
  one_decimal n q (toFixed1 n q).
Proof.
  intros Hn Hq Hsmall. unfold one_decimal.
  rewrite toFixed1_below_1e21 by exact Hsmall.
  set (t := tenths n q).
  assert (Ht : 0 <= t) by (apply Z.div_pos; lia).
  exists (t / 10), (t mod 10).
  pose proof (Z.mod_pos_bound t 10 ltac:(lia)) as Hd.
  split; [apply Z.div_pos; lia|]. split; [lia|]. split; [reflexivity|].
  rewrite <- (Z.div_mod t 10) by lia.
  pose proof (Z.div_mod (2 * 10 * n + q) (2 * q) ltac:(lia)) as E.
  pose proof (Z.mod_pos_bound (2 * 10 * n + q) (2 * q) ltac:(lia)) as Hr.
  fold (tenths n q) in E. fold t in E. lia.
Qed.

(** C6. For a byte count [n] from 0 to [2^53], the integers a file's
    size can be, humanSize shows [n] itself and [B] below 1024, [n/1024]
    and [KB] below 1024^2, [n/1024^2] and [MB] below 1024^3, and
    [n/1024^3] and [GB] from there on, the quotient rounded to one decimal
    place; 10 bytes read "10 B" and 2048 bytes "2.0 KB". *)
Theorem humanSize_units :
  forall n : Z,
    0 <= n <= MAX_SAFE ->
    (n < 1024 -> humanSize n = (ToString n ++ " B")%string)
    /\ (1024 <= n < 1024 ^ 2 ->
        exists s, humanSize n = (s ++ " KB")%string
                  /\ one_decimal n 1024 s)
    /\ (1024 ^ 2 <= n < 1024 ^ 3 ->
        exists s, humanSize n = (s ++ " MB")%string
                  /\ one_decimal n (1024 ^ 2) s)
    /\ (1024 ^ 3 <= n ->
        exists s, humanSize n = (s ++ " GB")%string
                  /\ one_decimal n (1024 ^ 3) s)
    /\ humanSize 10 = "10 B"%string
    /\ humanSize 2048 = "2.0 KB"%string.
Proof.
  intros n Hn. rewrite MAX_SAFE_eq in Hn. unfold humanSize.
  change (1024 * 1024 * 1024) with (1024 ^ 3).
  change (1024 * 1024) with (1024 ^ 2).
  assert (H2 : 1024 ^ 2 = 1048576) by reflexivity.
  assert (H3 : 1024 ^ 3 = 1073741824) by reflexivity.
  split; [|split; [|split; [|split; [|split]]]]; try reflexivity.
  - intros H. destruct (Z.ltb_spec n 1024); [reflexivity|lia].
  - intros H. destruct (Z.ltb_spec n 1024); [lia|].
    destruct (Z.ltb_spec n (1024 ^ 2)); [|lia].
    eexists. split; [reflexivity|].
    apply toFixed1_one_decimal; lia.
  - intros H. destruct (Z.ltb_spec n 1024); [lia|].
    destruct (Z.ltb_spec n (1024 ^ 2)); [lia|].
    destruct (Z.ltb_spec n (1024 ^ 3)); [|lia].
    eexists. split; [reflexivity|].
    apply toFixed1_one_decimal; lia.
  - intros H. destruct (Z.ltb_spec n 1024); [lia|].
    destruct (Z.ltb_spec n (1024 ^ 2)); [lia|].
    destruct (Z.ltb_spec n (1024 ^ 3)); [lia|].
    eexists. split; [reflexivity|].
    apply toFixed1_one_decimal; lia.
Qed.

(** ** Number and the string form of a key *)

Lemma scan_digits_printed d :
  scan_digits (NilEmpty.string_of_uint d) = (d, EmptyString).
Proof. induction d; simpl; try rewrite IHd; reflexivity. Qed.

(** An integer from 1 to [2^53] is a double. *)
Lemma double_of_safe k : 0 < k <= MAX_SAFE -> double_of k 1 = Int k.
Proof.
  intros [Hpos Hmax]. rewrite MAX_SAFE_eq in Hmax.
  destruct (Z.eq_dec k 9007199254740992) as [->|Hne]; [reflexivity|].
  unfold double_of. destruct (Z.eqb_spec k 0); [lia|].
  change (Z.log2 1) with 0. rewrite Z.sub_0_r.
  pose proof (Z.log2_nonneg k) as Hl0.
  destruct (Z.log2_spec k Hpos) as [Hlo Hhi].
  assert (Hl52 : Z.log2 k <= 52).
  { apply Z.lt_succ_r. apply Z.log2_lt_pow2; [assumption|].
    change (2 ^ Z.succ 52) with 9007199254740992. lia. }
  unfold pow2.
  rewrite (Z.max_l 0 (- Z.log2 k)), (Z.max_r 0 (Z.log2 k)) by lia.
  rewrite Z.pow_0_r, Z.mul_1_r, Z.mul_1_l.
  destruct (Z.ltb_spec k (2 ^ Z.log2 k)); [lia|].
  rewrite (Z.max_l (Z.log2 k - 52) (-1074)) by lia.
  set (x := Z.log2 k - 52).
  rewrite (Z.max_r 0 (- x)), (Z.max_l 0 x) by lia.
  rewrite Z.pow_0_r, Z.mul_1_l.
  assert (Hp : 0 < 2 ^ (- x)) by (apply Z.pow_pos_nonneg; lia).
  unfold round_half_even.
  rewrite Z.mod_1_r, Z.div_1_r. change (2 * 0 ?= 1) with Lt.
  destruct (Z.leb_spec 0 x) as [Hx|Hx].
  - assert (x = 0) by lia. replace x with 0 by lia.
    rewrite Z.pow_0_r, !Z.mul_1_r.
    destruct (Z.leb_spec (2 ^ 1024) k) as [Hbig|_]; [|reflexivity].
    assert (2 ^ 53 <= 2 ^ 1024) by (apply Z.pow_le_mono_r; lia).
    change (2 ^ 53) with 9007199254740992 in *. lia.
  - rewrite Z.mod_mul by lia. simpl (0 =? 0).
    now rewrite Z.div_mul by lia.
Qed.

Lemma decimal_value_safe (m : N) :
  (0 < Z.of_N m <= MAX_SAFE) -> decimal_value m 0 = Int (Z.of_N m).
Proof.
  intros H. unfold decimal_value. simpl (0 <=? 0).
  rewrite Z.pow_0_r, Z.mul_1_r. now apply double_of_safe.
Qed.

(** A printed, non-empty digit sequence reads back as its value. *)
Lemma StrUnsignedDecimalLiteral_printed d :
  d <> Nil ->
  StrUnsignedDecimalLiteral (NilEmpty.string_of_uint d)
  = decimal_value (N.of_uint d) 0.
Proof.
  intros Hd. unfold StrUnsignedDecimalLiteral.
  assert (Hp : String.prefix "Infinity" (NilEmpty.string_of_uint d) = false)
    by (destruct d; try reflexivity; contradiction).
  rewrite Hp, scan_digits_printed.
  assert (Hn : is_nil d = false) by (destruct d; try reflexivity; contradiction).
  rewrite Hn. simpl. now rewrite DecimalFacts.app_nil_r.
Qed.

Lemma StringToNumber_printed d :
  d <> Nil ->
  StringToNumber (NilEmpty.string_of_uint d) = decimal_value (N.of_uint d) 0.
Proof.
  intros Hd. rewrite <- (StrUnsignedDecimalLiteral_printed d Hd).
  unfold StringToNumber.
  destruct d as [|d|d|d|d|d|d|d|d|d|d]; try contradiction;
    try reflexivity.
  destruct d; reflexivity.
Qed.

Lemma ToString_pos p :
  ToString (Z.pos p) = NilEmpty.string_of_uint (Pos.to_uint p).
Proof.
  unfold ToString. simpl. unfold NilZero.string_of_uint.
  pose proof (DecimalPos.Unsigned.to_uint_nonnil p).
  destruct (Pos.to_uint p); [contradiction|reflexivity..].
Qed.

Lemma ToString_neg p :
  ToString (Z.neg p)
  = String "-" (NilEmpty.string_of_uint (Pos.to_uint p)).
Proof.
  unfold ToString. simpl. unfold NilZero.string_of_uint.
  pose proof (DecimalPos.Unsigned.to_uint_nonnil p).
  destruct (Pos.to_uint p); [contradiction|reflexivity..].
Qed.

(** [Number(String(k)) = k] for every safe integer [k]. *)
Lemma Number_ToString k :
  - MAX_SAFE <= k <= MAX_SAFE -> Number (VStr (ToString k)) = Int k.
Proof.
  intros Hk. simpl. destruct k as [|p|p].
  - reflexivity.
  - rewrite ToString_pos, StringToNumber_printed
      by apply DecimalPos.Unsigned.to_uint_nonnil.
    unfold N.of_uint. rewrite DecimalPos.Unsigned.of_to.
    apply decimal_value_safe. simpl. lia.
  - rewrite ToString_neg. unfold StringToNumber.
    simpl skip_ws. cbv beta iota.
    change (NonDecimalIntegerLiteral
              (String "-" (NilEmpty.string_of_uint (Pos.to_uint p))))
      with (@None jsnum).
    cbv beta iota. simpl take_sign. cbv beta iota.
    rewrite StrUnsignedDecimalLiteral_printed
      by apply DecimalPos.Unsigned.to_uint_nonnil.
    unfold N.of_uint. rewrite DecimalPos.Unsigned.of_to.
    rewrite decimal_value_safe by (simpl; lia). reflexivity.
Qed.

(** C10. Both functions pass [Number(id)] to the store.  For a record
    [r] of a reachable store, a call with the string form of [r]'s id
    gives the same result and the same world as the call with the id
    itself, whatever the engine does. *)
Theorem string_id_behaves_as_number :
  forall (w : world) (r : record),
    world_wf w ->
    In r (stored w) ->
    Number (VStr (ToString (id r))) = Number (VNum (Int (id r)))
    /\ getFileById (VStr (ToString (id r))) w
       = getFileById (VNum (Int (id r))) w
    /\ deleteFileById (VStr (ToString (id r))) w
       = deleteFileById (VNum (Int (id r))) w.
Proof.
  intros w r Hwf Hin. rewrite <- stored_the_store in Hin.
  pose proof (store_wf_key_range _ _ Hwf Hin) as Hk.
  assert (E : Number (VStr (ToString (id r))) = Number (VNum (Int (id r)))).
  { rewrite Number_ToString; [reflexivity|]. rewrite MAX_SAFE_eq in *. lia. }
  split; [exact E|].
  unfold getFileById, deleteFileById. now rewrite E.
Qed.

(** ** Sample runs *)

Example three_files_stored :
  map (fun r => (id r, name r, size r, added r)) (stored (three_files steady))
  = [(1, "a.txt"%string, 10, 1700000000000);
     (2, "b.bin"%string, 2048, 1700000000001);
     (3, "c.png"%string, 5242880, 1700000000002)].
Proof. vm_compute. reflexivity. Qed.

Lemma steady_engine_ok n w : env w = steady -> engine_ok n w.
Proof. intros E i _. rewrite E. split; reflexivity. Qed.

Lemma preserves_upload_each files : preserves (upload_each files).
Proof.
  induction files as [|f files IH]; [now intros w|].
  simpl. apply preserves_bind; [apply preserves_addFileEntry|].
  intros _. exact IH.
Qed.

Lemma three_files_wf : world_wf (three_files steady).
Proof.
  apply preserves_upload_each. apply createObjectStore_wf.
Qed.

Lemma upload_then_list_all_witness :
  stored (boot steady []) = []
  /\ engine_ok 8 (boot steady [])
  /\ keygen (the_store (boot steady [])) + 3 <= MAX_SAFE + 1
  /\ exists w' recs w'',
       upload_each [a_txt; b_bin; c_png] (boot steady []) = (Resolved tt, w')
       /\ listAllFiles w' = (Resolved recs, w'')
       /\ List.length recs = 3%nat
       /\ map name recs = ["a.txt"; "b.bin"; "c.png"]%string
       /\ map type recs
          = ["text/plain"; "application/octet-stream"; "image/png"]%string
       /\ map size recs = [10; 2048; 5242880]
       /\ NoDup (map id recs).
Proof.
  assert (H1 : stored (boot steady []) = []) by reflexivity.
  assert (H2 : engine_ok 8 (boot steady []))
    by (intros i _; split; reflexivity).
  assert (H3 : keygen (the_store (boot steady [])) + 3 <= MAX_SAFE + 1)
    by (vm_compute; discriminate).
  split; [exact H1|]. split; [exact H2|]. split; [exact H3|].
  exact (upload_then_list_all [a_txt; b_bin; c_png] _ H1 H2 H3).
Defined.

Lemma delete_removes_exactly_that_record_witness :
  world_wf (three_files steady)
  /\ Number (VStr "2") = Int 2
  /\ In 2 (map id (stored (three_files steady)))
  /\ engine_ok 4 (three_files steady)
  /\ exists w1 w2 l1 r l2,
       deleteFileById (VStr "2") (three_files steady) = (Resolved tt, w1)
       /\ stored (three_files steady) = l1 ++ r :: l2
       /\ id r = 2
       /\ stored w1 = l1 ++ l2
       /\ ~ In 2 (map id (stored w1))
       /\ getFileById (VStr "2") w1 = (Resolved None, w2).
Proof.
  assert (H2 : Number (VStr "2") = Int 2) by (vm_compute; reflexivity).
  assert (H3 : In 2 (map id (stored (three_files steady))))
    by (vm_compute; right; left; reflexivity).
  assert (H4 : engine_ok 4 (three_files steady))
    by (intros i _; vm_compute; split; reflexivity).
  split; [exact three_files_wf|]. split; [exact H2|].
  split; [exact H3|]. split; [exact H4|].
  exact (delete_removes_exactly_that_record _ _ _ three_files_wf H2 H3 H4).
Defined.

Lemma clearAll_then_list_is_empty_witness :
  engine_ok 4 (three_files steady)
  /\ exists w1 w2,
       clearAll (three_files steady) = (Resolved tt, w1)
       /\ listAllFiles w1 = (Resolved [], w2).
Proof.
  assert (H : engine_ok 4 (three_files steady))
    by (intros i _; vm_compute; split; reflexivity).
  split; [exact H|]. exact (clearAll_then_list_is_empty _ H).
Defined.

Lemma delete_absent_is_no_error_witness :
  engine_ok 2 (three_files steady)
  /\ exists w1,
       deleteFileById (VNum (Int 7)) (three_files steady) = (Resolved tt, w1)
       /\ (~ In 7 (map id (stored (three_files steady))) ->
           stored w1 = stored (three_files steady))
       /\ (engine_ok 2 w1 ->
           exists w2,
             deleteFileById (VNum (Int 7)) w1 = (Resolved tt, w2)
             /\ database w2 = database w1).
Proof.
  assert (H : engine_ok 2 (three_files steady))
    by (intros i _; vm_compute; split; reflexivity).
  split; [exact H|]. exact (delete_absent_is_no_error _ 7 H).
Defined.

Lemma renderList_newest_first_witness :
  engine_ok 2 (three_files steady)
  /\ stored (three_files steady) <> []
  /\ exists w' rows,
       renderList (three_files steady) = (Resolved tt, w')
       /\ fileList_children (page w') = map createFileRow rows
       /\ Permutation rows (stored (three_files steady))
       /\ StronglySorted not_older rows
       /\ (forall r1 r2 r3,
              stored (three_files steady) = [r1; r2; r3] ->
              added r1 < added r2 < added r3 ->
              rows = [r3; r2; r1]).
Proof.
  assert (H1 : engine_ok 2 (three_files steady))
    by (intros i _; vm_compute; split; reflexivity).
  assert (H2 : stored (three_files steady) <> [])
    by (vm_compute; discriminate).
  split; [exact H1|]. split; [exact H2|].
  exact (renderList_newest_first _ H1 H2).
Defined.

Example three_files_rendered :
  match fileList_children (page (snd (renderList (three_files steady)))) with
  | [FileRow r3 n3 s3 t3; FileRow r2 n2 s2 t2; FileRow r1 n1 s1 t1] =>
      [(n3, s3, t3); (n2, s2, t2); (n1, s1, t1)]
  | _ => []
  end
  = [("c.png", "5.0 MB", 1700000000002);
     ("b.bin", "2.0 KB", 1700000000001);
     ("a.txt", "10 B", 1700000000000)]%string.
Proof. vm_compute. reflexivity. Qed.

Lemma humanSize_units_witness :
  0 <= 2048 <= MAX_SAFE
  /\ (2048 < 1024 -> humanSize 2048 = (ToString 2048 ++ " B")%string)
  /\ (1024 <= 2048 < 1024 ^ 2 ->
      exists s, humanSize 2048 = (s ++ " KB")%string
                /\ one_decimal 2048 1024 s)
  /\ (1024 ^ 2 <= 2048 < 1024 ^ 3 ->
      exists s, humanSize 2048 = (s ++ " MB")%string
                /\ one_decimal 2048 (1024 ^ 2) s)
  /\ (1024 ^ 3 <= 2048 ->
      exists s, humanSize 2048 = (s ++ " GB")%string
                /\ one_decimal 2048 (1024 ^ 3) s)
  /\ humanSize 10 = "10 B"%string
  /\ humanSize 2048 = "2.0 KB"%string.
Proof.
  assert (H : 0 <= 2048 <= MAX_SAFE) by (rewrite MAX_SAFE_eq; lia).
  split; [exact H|]. exact (humanSize_units 2048 H).
Defined.

Lemma upload_failure_aborts_the_rest_witness :
  let w1 := snd (upload_each [a_txt] second_fails) in
  let w2 := snd (addFileEntry b_bin w1) in
  fileInput_files (page second_fails) = [a_txt] ++ b_bin :: [c_png]
  /\ upload_each [a_txt] second_fails = (Resolved tt, w1)
  /\ addFileEntry b_bin w1 = (Rejected QuotaExceeded, w2)
  /\ exists w',
       uploadBtn_click second_fails = (Resolved tt, w')
       /\ stored w' = stored w1
       /\ requests w' = requests w2
       /\ alerts (page w')
          = alerts (page second_fails)
            ++ [("Upload failed: " ++ message_or_error QuotaExceeded)%string]
       /\ (exists a b : string,
              ("Upload failed: " ++ message_or_error QuotaExceeded)%string
              = (a ++ err_message QuotaExceeded ++ b)%string)
       /\ console (page w') = console (page second_fails) ++ [QuotaExceeded]
       /\ fileInput_files (page w') = fileInput_files (page second_fails)
       /\ uploadBtn_disabled (page w') = false.
Proof.
  intros w1 w2.
  assert (H1 : fileInput_files (page second_fails)
               = [a_txt] ++ b_bin :: [c_png]) by reflexivity.
  assert (H2 : upload_each [a_txt] second_fails = (Resolved tt, w1))
    by (vm_compute; reflexivity).
  assert (H3 : addFileEntry b_bin w1 = (Rejected QuotaExceeded, w2))
    by (vm_compute; reflexivity).
  split; [exact H1|]. split; [exact H2|]. split; [exact H3|].
  exact (upload_failure_aborts_the_rest _ _ _ _ _ _ _ H1 H2 H3).
Defined.

(** C7 as stated fails when the failure comes at commit time.  Of three
    files the transaction storing the second is aborted after its [add]
    succeeded: [addFileEntry] has resolved by then (l.28), the loop goes
    on, and the handler ends with the first and the third file stored, the
    second not, and no alert. *)
Lemma upload_rollback_is_not_noticed :
  let w' := snd (uploadBtn_click second_rolled_back) in
  uploadBtn_click second_rolled_back = (Resolved tt, w')
  /\ persisted a_txt w'
  /\ ~ persisted b_bin w'
  /\ persisted c_png w'
  /\ map name (stored w') = ["a.txt"; "c.png"]%string
  /\ alerts (page w') = []
  /\ console (page w') = []
  /\ ~ failure_stops_and_alerts b_bin [c_png] w'.
Proof.
  intros w'.
  assert (Ha : persisted a_txt w').
  { eexists. split; [left; reflexivity|]. vm_compute. reflexivity. }
  assert (Hc : persisted c_png w').
  { eexists. split; [right; left; reflexivity|]. vm_compute. reflexivity. }
  assert (Hb : ~ persisted b_bin w').
  { intros (r & Hin & Hr). vm_compute in Hin.
    destruct Hin as [<-|[<-|[]]]; vm_compute in Hr; discriminate Hr. }
  split; [vm_compute; reflexivity|].
  split; [exact Ha|]. split; [exact Hb|]. split; [exact Hc|].
  split; [vm_compute; reflexivity|].
  split; [vm_compute; reflexivity|].
  split; [vm_compute; reflexivity|].
  intros H. destruct (H Hb) as [Hpost _].
  apply (Hpost c_png); [left; reflexivity|exact Hc].
Qed.

(** The same run seen from the gateway: the three calls resolve, and the
    listing afterwards has two records. *)
Example resolved_upload_rolled_back :
  let w' := snd (upload_each [a_txt; b_bin; c_png] (boot (aborting_at 3) [])) in
  upload_each [a_txt; b_bin; c_png] (boot (aborting_at 3) []) = (Resolved tt, w')
  /\ fst (listAllFiles w') = Resolved (stored w')
  /\ map (fun r => (id r, name r)) (stored w')
     = [(1, "a.txt"); (2, "c.png")]%string.
Proof. vm_compute. repeat split; reflexivity. Qed.

Example second_fails_outcome :
  let w' := snd (uploadBtn_click second_fails) in
  (map name (stored w'), requests w', alerts (page w'),
   uploadBtn_disabled (page w'), uploadBtn_textContent (page w'))
  = (["a.txt"], 4%nat, ["Upload failed: The quota has been exceeded."],
     false, "Upload")%string.
Proof. vm_compute. reflexivity. Qed.

Lemma upload_button_idle_uploading_idle_witness :
  let w := boot steady [a_txt; b_bin] in
  let files := fileInput_files (page w) in
  let w0 := set_page (upload_begin (page w)) w in
  files <> [] /\ phase_of w = idle
  /\ phase_of w0 = uploading
  /\ (forall n, phase_of (snd (upload_each (firstn n files) w0)) = uploading)
  /\ phase_of (snd (upload_try files w0)) = uploading
  /\ phase_of (snd (uploadBtn_click w)) = idle.
Proof.
  intros w files w0.
  assert (H1 : files <> []) by (vm_compute; discriminate).
  assert (H2 : phase_of w = idle) by reflexivity.
  destruct (upload_button_idle_uploading_idle w) as [Hsel _].
  destruct (Hsel H1) as (A & B & C & _ & D).
  split; [exact H1|]. split; [exact H2|].
  split; [exact A|]. split; [exact B|]. split; [exact C|exact D].
Defined.

Lemma string_id_behaves_as_number_witness :
  world_wf (three_files steady)
  /\ In b_record (stored (three_files steady))
  /\ Number (VStr "2") = Number (VNum (Int 2))
  /\ getFileById (VStr "2") (three_files steady)
     = getFileById (VNum (Int 2)) (three_files steady)
  /\ deleteFileById (VStr "2") (three_files steady)
     = deleteFileById (VNum (Int 2)) (three_files steady).
Proof.
  assert (H : In b_record (stored (three_files steady)))
    by (vm_compute; right; left; reflexivity).
  split; [exact three_files_wf|]. split; [exact H|].
  exact (string_id_behaves_as_number _ b_record three_files_wf H).
Defined.

(** ** Failures outside the upload handler *)

(** The refresh, delete and clear-all listeners have no catch block: they
    never call [alert], whatever happens. *)
Lemma no_alert_outside_upload :
  kept alerts refreshBtn_click
  /\ (forall item, kept alerts (delBtn_click item))
  /\ kept alerts clearAllBtn_click.
Proof.
  assert (R : kept alerts renderList) by now apply kept_renderList.
  assert (D : kept alerts (detach renderList)) by now apply kept_detach.
  split; [exact R|]. split.
  - intros item. unfold delBtn_click.
    apply kept_bind; [now intros w|intros ok].
    destruct ok; simpl; [|now intros w].
    apply kept_bind; [apply page_kept_any, page_kept_deleteFileById|].
    intros _. exact D.
  - unfold clearAllBtn_click.
    apply kept_bind; [now intros w|intros ok].
    destruct ok; simpl; [|now intros w].
    apply kept_bind; [apply page_kept_any, page_kept_clearAll|].
    intros _. exact D.
Qed.

(** C8 holds for the upload handler only.  Whenever the storage call of
    a confirmed Clear All, of Refresh or of a confirmed row Delete rejects
    with [e], the listener shows no alert: [e] ends as an unhandled
    rejection, the engine is sent no further request and the records stay
    as the failed call left them.  After a failed Refresh the list is left
    empty. *)
Theorem storage_failure_without_alert :
  (forall w e w2,
      answers (env w) (prompts w) = true ->
      clearAll (set_prompts (S (prompts w)) w) = (Rejected e, w2) ->
      let w' := dispatch clearAllBtn_click w in
      alerts (page w') = alerts (page w)
      /\ unhandled (page w') = unhandled (page w) ++ [e]
      /\ requests w' = requests w2 /\ stored w' = stored w2)
  /\ (forall w e w2,
         listAllFiles (set_page (set_children [] (page w)) w)
         = (Rejected e, w2) ->
         let w' := dispatch refreshBtn_click w in
         alerts (page w') = alerts (page w)
         /\ unhandled (page w') = unhandled (page w) ++ [e]
         /\ requests w' = requests w2 /\ stored w' = stored w2
         /\ fileList_children (page w') = [])
  /\ (forall w item e w2,
         answers (env w) (prompts w) = true ->
         deleteFileById (VNum (Int (id item))) (set_prompts (S (prompts w)) w)
         = (Rejected e, w2) ->
         let w' := dispatch (delBtn_click item) w in
         alerts (page w') = alerts (page w)
         /\ unhandled (page w') = unhandled (page w) ++ [e]
         /\ requests w' = requests w2 /\ stored w' = stored w2).
Proof.
  split; [|split].
  - intros w e w2 Hyes Hfail.
    pose proof (page_kept_clearAll (set_prompts (S (prompts w)) w)) as Hp.
    unfold dispatch, detach, clearAllBtn_click, bind, confirm.
    rewrite Hyes. change (negb true) with false. cbv beta iota.
    rewrite Hfail in Hp. rewrite Hfail. simpl in *. rewrite Hp. repeat split.
  - intros w e w2 Hfail.
    pose proof (page_kept_listAllFiles
                  (set_page (set_children [] (page w)) w)) as Hp.
    unfold dispatch, detach, refreshBtn_click, renderList, bind, update.
    cbv beta iota. rewrite Hfail in Hp. rewrite Hfail. simpl in *. rewrite Hp. repeat split.
  - intros w item e w2 Hyes Hfail.
    pose proof (page_kept_deleteFileById (VNum (Int (id item)))
                  (set_prompts (S (prompts w)) w)) as Hp.
    unfold dispatch, detach, delBtn_click, bind, confirm.
    rewrite Hyes. change (negb true) with false. cbv beta iota.
    rewrite Hfail in Hp. rewrite Hfail. simpl in *. rewrite Hp. repeat split.
Qed.

Lemma storage_failure_without_alert_witness :
  answers (env one_record) (prompts one_record) = true
  /\ clearAll (set_prompts 1 one_record)
     = (Rejected QuotaExceeded,
        settle 2 (the_store one_record) (set_prompts 1 one_record))
  /\ (let w' := dispatch clearAllBtn_click one_record in
      alerts (page w') = []
      /\ unhandled (page w') = [] ++ [QuotaExceeded]
      /\ requests w' = 2%nat
      /\ stored w' = stored one_record).
Proof.
  assert (H1 : answers (env one_record) (prompts one_record) = true)
    by reflexivity.
  assert (H2 : clearAll (set_prompts 1 one_record)
               = (Rejected QuotaExceeded,
                  settle 2 (the_store one_record) (set_prompts 1 one_record)))
    by (vm_compute; reflexivity).
  split; [exact H1|]. split; [exact H2|].
  destruct storage_failure_without_alert as [Hclear _].
  exact (Hclear one_record QuotaExceeded _ H1 H2).
Defined.

Example one_record_failures :
  let shown w := (alerts (page w), unhandled (page w), requests w,
                  List.length (stored w)) in
  shown (dispatch clearAllBtn_click one_record)
  = ([], [QuotaExceeded], 2%nat, 1%nat)
  /\ shown (dispatch refreshBtn_click one_record)
     = ([], [QuotaExceeded], 2%nat, 1%nat)
  /\ shown (dispatch (delBtn_click
                        (with_key 1 (entry_of a_txt (boot steady []))))
                     one_record)
     = ([], [QuotaExceeded], 2%nat, 1%nat).
Proof. vm_compute. repeat split. Qed.

(** The same through the buttons: a click on Upload with three files
    selected, on a page just loaded. *)
Example click_upload_three_files :
  let w' := dispatch uploadBtn_click (boot steady [a_txt; b_bin; c_png]) in
  (map (fun r => (id r, name r, type r, size r)) (stored w'),
   fileInput_files (page w'), alerts (page w'),
   uploadBtn_disabled (page w'), List.length (fileList_children (page w')))
  = ([(1, "a.txt", "text/plain", 10);
      (2, "b.bin", "application/octet-stream", 2048);
      (3, "c.png", "image/png", 5242880)]%string,
     [], [], false, 3%nat).
Proof. vm_compute. reflexivity. Qed.

(** * Sessions: what every sequence of actions keeps *)

(** ** Relations kept by every step

    A relation that only looks at the database, and that composes, is kept
    by the handlers as soon as the five gateway functions keep it. *)

Section Respects.
Variable R : world -> world -> Prop.
Hypothesis R_frame : forall w w', database w' = database w -> R w w'.
Hypothesis R_trans : forall w1 w2 w3, R w1 w2 -> R w2 w3 -> R w1 w3.

Lemma respects_bind {A B} (m : promise A) (k : A -> promise B) :
  respects R m -> (forall a, respects R (k a)) -> respects R (bind m k).
Proof.
  intros Hm Hk w. unfold bind. specialize (Hm w).
  destruct (m w) as [[a|e] w']; simpl in *; [|assumption].
  apply (R_trans _ w'); [assumption|apply Hk].
Qed.

Lemma respects_catch {A} (m : promise A) h :
  respects R m -> (forall e, respects R (h e)) -> respects R (try_catch m h).
Proof.
  intros Hm Hh w. unfold try_catch. specialize (Hm w).
  destruct (m w) as [[a|e] w']; simpl in *; [assumption|].
  apply (R_trans _ w'); [assumption|apply Hh].
Qed.

Lemma respects_finally {A} (m : promise A) f :
  respects R m -> (forall w, database (f w) = database w) ->
  respects R (try_finally m f).
Proof.
  intros Hm Hf w. unfold try_finally. specialize (Hm w).
  destruct (m w) as [r w']; simpl in *.
  apply (R_trans _ w'); [assumption|]. now apply R_frame.
Qed.

Lemma respects_detach {A} (m : promise A) :
  respects R m -> respects R (detach m).
Proof.
  intros Hm w. unfold detach. specialize (Hm w).
  destruct (m w) as [[a|e] w']; simpl in *; [assumption|].
  apply (R_trans _ w'); [assumption|]. now apply R_frame.
Qed.

Lemma respects_update f : respects R (update f).
Proof. intros w. now apply R_frame. Qed.

Lemma respects_confirm msg : respects R (confirm msg).
Proof. intros w. now apply R_frame. Qed.

Lemma respects_resolve {A} (a : A) : respects R (resolve a).
Proof. intros w. now apply R_frame. Qed.

Hypothesis R_add : forall f, respects R (addFileEntry f).
Hypothesis R_list : respects R listAllFiles.
Hypothesis R_get : forall v, respects R (getFileById v).
Hypothesis R_delete : forall v, respects R (deleteFileById v).
Hypothesis R_clear : respects R clearAll.

Lemma respects_renderList : respects R renderList.
Proof.
  unfold renderList.
  apply respects_bind; [apply respects_update|intros _].
  apply respects_bind; [apply R_list|intros all].
  destruct all; apply respects_update.
Qed.

Lemma respects_upload_each files : respects R (upload_each files).
Proof.
  induction files as [|f files IH]; [apply respects_resolve|].
  simpl. apply respects_bind; [apply R_add|]. intros _. exact IH.
Qed.

Lemma respects_uploadBtn_click : respects R uploadBtn_click.
Proof.
  intros w. unfold uploadBtn_click.
  destruct (fileInput_files (page w)) as [|f files] eqn:E.
  - now apply R_frame.
  - apply (respects_bind (update upload_begin)); [apply respects_update|].
    intros _. apply respects_finally; [|reflexivity].
    unfold upload_try. apply respects_catch.
    + apply respects_bind; [apply respects_upload_each|intros _].
      apply respects_bind; [apply respects_update|intros _].
      apply respects_renderList.
    + intros e. apply respects_bind; [|intros _]; apply respects_update.
Qed.

Lemma respects_delBtn_click item : respects R (delBtn_click item).
Proof.
  unfold delBtn_click.
  apply respects_bind; [apply respects_confirm|intros ok].
  destruct ok; simpl; [|apply respects_resolve].
  apply respects_bind; [apply R_delete|intros _].
  apply respects_detach, respects_renderList.
Qed.

Lemma respects_clearAllBtn_click : respects R clearAllBtn_click.
Proof.
  unfold clearAllBtn_click.
  apply respects_bind; [apply respects_confirm|intros ok].
  destruct ok; simpl; [|apply respects_resolve].
  apply respects_bind; [apply R_clear|intros _].
  apply respects_detach, respects_renderList.
Qed.

Lemma respects_dispatch h w : respects R h -> R w (dispatch h w).
Proof. intros Hh. unfold dispatch. now apply respects_detach. Qed.

Lemma respects_step a w : R w (step a w).
Proof.
  destruct a; simpl.
  - now apply R_frame.
  - apply respects_dispatch, respects_uploadBtn_click.
  - apply respects_dispatch, respects_renderList.
  - apply respects_dispatch, respects_clearAllBtn_click.
  - apply respects_dispatch, respects_delBtn_click.
  - apply R_add.
  - apply R_list.
  - apply R_get.
  - apply R_delete.
  - apply R_clear.
Qed.

Lemma respects_run acts : forall w, R w (run acts w).
Proof.
  induction acts as [|a acts IH]; intros w; simpl.
  - now apply R_frame.
  - apply (R_trans _ (step a w)); [apply respects_step|apply IH].
Qed.

End Respects.

(** ** The two relations *)

Lemma keeps_wf_frame w w' : database w' = database w -> keeps_wf w w'.
Proof. intros E H. unfold world_wf, the_store in *. now rewrite E. Qed.

Lemma keeps_wf_trans w1 w2 w3 :
  keeps_wf w1 w2 -> keeps_wf w2 w3 -> keeps_wf w1 w3.
Proof. unfold keeps_wf. auto. Qed.

Lemma evolves_same_store w w' : the_store w' = the_store w -> evolves w w'.
Proof.
  intros E. unfold evolves. rewrite <- !stored_the_store, E.
  split; [lia|]. intros r Hr. now left.
Qed.

Lemma evolves_frame w w' : database w' = database w -> evolves w w'.
Proof.
  intros E. apply evolves_same_store. unfold the_store. now rewrite E.
Qed.

Lemma evolves_trans w1 w2 w3 :
  evolves w1 w2 -> evolves w2 w3 -> evolves w1 w3.
Proof.
  intros [K1 H1] [K2 H2]. split; [lia|].
  intros r Hr. destruct (H2 r Hr) as [Hin|Hk]; [|right; lia].
  destruct (H1 r Hin) as [Hin'|Hk]; [now left|now right].
Qed.

Lemma the_store_openDB w : the_store (snd (openDB w)) = the_store w.
Proof.
  unfold openDB, bind, engine_request.
  destruct (engine (env w) (requests w)); [reflexivity|].
  destruct w as [e [s|] n t q p]; reflexivity.
Qed.

Lemma put_record_In r r' l : In r' (put_record r l) -> r' = r \/ In r' l.
Proof.
  induction l as [|a l IH]; simpl.
  - intros [E|[]]. now left.
  - destruct (id r <? id a); simpl.
    + intros [E|H]; [now left|now right].
    + intros [E|H]; [right; now left|].
      destruct (IH H) as [E|Hin]; [now left|right; now right].
Qed.

(** A store operation that neither rewinds the generator nor rewrites a
    record keeps [evolves] when it runs as a request. *)
Lemma evolves_request {A}
      (op : objectStore -> (A + DOMException) * objectStore) :
  (forall s, keygen s <= keygen (snd (op s))
             /\ forall r, In r (records (snd (op s))) ->
                          In r (records s) \/ keygen s <= id r) ->
  respects evolves (request op).
Proof.
  intros Hop w. unfold request, engine_request.
  destruct (database w) as [s|] eqn:E; [|now apply evolves_frame].
  destruct (engine (env w) (requests w)); simpl;
    [now apply evolves_frame|].
  specialize (Hop s). destruct (op s) as [[a|e] s']; simpl in *;
    [|now apply evolves_frame].
  destruct (commit (env w) (requests w)).
  - unfold evolves, the_store, stored. simpl. now rewrite E.
  - apply evolves_frame. simpl. now rewrite E.
Qed.

Lemma evolves_store_add e s :
  keygen s <= keygen (snd (store_add e s))
  /\ forall r, In r (records (snd (store_add e s))) ->
               In r (records s) \/ keygen s <= id r.
Proof.
  unfold store_add. destruct (MAX_SAFE <? keygen s); simpl;
    [split; [lia|now left]|].
  destruct (has_key (keygen s) (records s)); simpl;
    [split; [lia|now left]|].
  split; [lia|]. intros r Hr.
  destruct (put_record_In _ _ _ Hr) as [->|Hin]; [right; simpl; lia|now left].
Qed.

Lemma evolves_gateway :
  (forall f, respects evolves (addFileEntry f))
  /\ respects evolves listAllFiles
  /\ (forall v, respects evolves (getFileById v))
  /\ (forall v, respects evolves (deleteFileById v))
  /\ respects evolves clearAll.
Proof.
  assert (Hopen : respects evolves openDB)
    by (intros w; apply evolves_same_store, the_store_openDB).
  assert (Htx : respects evolves transaction).
  { intros w. apply evolves_frame. unfold transaction.
    destruct w as [e [s|] n t q p]; reflexivity. }
  assert (Hread : forall A (f : objectStore -> A),
             respects evolves (request (fun s => (inl (f s), s)))).
  { intros A f. apply evolves_request. intros s. simpl.
    split; [lia|now left]. }
  pose proof (fun A B => @respects_bind evolves evolves_trans A B) as B.
  split; [|split; [|split; [|split]]].
  - intros f. unfold addFileEntry.
    apply B; [exact Hopen|intros _]. apply B; [exact Htx|intros _].
    apply B; [intros w; now apply evolves_frame|intros now].
    apply evolves_request. intros s. apply evolves_store_add.
  - unfold listAllFiles.
    apply B; [exact Hopen|intros _]. apply B; [exact Htx|intros _].
    apply Hread.
  - intros v. unfold getFileById.
    apply B; [exact Hopen|intros _]. apply B; [exact Htx|intros _].
    destruct (Number v);
      try apply Hread; intros w; now apply evolves_frame.
  - intros v. unfold deleteFileById.
    apply B; [exact Hopen|intros _]. apply B; [exact Htx|intros _].
    assert (Hdel : forall x,
               respects evolves
                        (request (fun s => (inl tt, store_delete x s)))).
    { intros x. apply evolves_request. intros s. simpl. split; [lia|].
      intros r Hr. apply filter_In in Hr. now left. }
    destruct (Number v);
      try apply Hdel; intros w; now apply evolves_frame.
  - unfold clearAll.
    apply B; [exact Hopen|intros _]. apply B; [exact Htx|intros _].
    apply evolves_request. intros s. simpl. split; [lia|intros r []].
Qed.

Lemma run_evolves acts w : evolves w (run acts w).
Proof.
  destruct evolves_gateway as (Ha & Hl & Hg & Hd & Hc).
  now apply (respects_run evolves evolves_frame evolves_trans).
Qed.

Lemma run_keeps_wf acts w : world_wf w -> world_wf (run acts w).
Proof.
  apply (respects_run keeps_wf keeps_wf_frame keeps_wf_trans).
  - exact preserves_addFileEntry.
  - exact preserves_listAllFiles.
  - exact preserves_getFileById.
  - exact preserves_deleteFileById.
  - exact preserves_clearAll.
Qed.

Lemma run_app a1 a2 w : run (a1 ++ a2) w = run a2 (run a1 w).
Proof. unfold run. apply fold_left_app. Qed.

Lemma sorted_lt_NoDup l : StronglySorted Z.lt l -> NoDup l.
Proof.
  induction 1 as [|x l Hs IH Hx]; constructor; [|assumption].
  intros Hin. rewrite Forall_forall in Hx. specialize (Hx x Hin). lia.
Qed.

Lemma wf_same_id s r r' :
  store_wf s -> In r (records s) -> In r' (records s) -> id r' = id r ->
  r' = r.
Proof.
  intros (Hs & _ & _). revert Hs.
  induction (records s) as [|a l IH]; simpl; [intros _ []|].
  intros Hs Hr Hr' E. inversion Hs as [|? ? Hs' Hall]; subst.
  rewrite Forall_forall in Hall.
  destruct Hr as [->|Hr], Hr' as [->|Hr']; try reflexivity.
  - specialize (Hall (id r') (in_map id _ _ Hr')). lia.
  - specialize (Hall (id r) (in_map id _ _ Hr)). lia.
  - now apply IH.
Qed.

(** X1. Whatever the user does after the page has loaded, in any order,
    whatever the engine answers, and whatever is called from the console:
    the stored records have pairwise distinct ids, are kept in ascending
    id order, and every id lies between 1 and [2^53]. *)
Theorem session_ids_unique_and_safe :
  forall (e : platform) (files : list File) (acts : list action),
    let l := stored (run acts (boot e files)) in
    NoDup (map id l)
    /\ StronglySorted Z.lt (map id l)
    /\ Forall (fun r => 1 <= id r <= MAX_SAFE) l.
Proof.
  intros e files acts l.
  assert (Hwf : world_wf (run acts (boot e files)))
    by (apply run_keeps_wf, createObjectStore_wf).
  pose proof Hwf as (Hs & Hr & Hk). rewrite stored_the_store in Hs, Hr.
  fold l in Hs, Hr. split; [now apply sorted_lt_NoDup|]. split; [assumption|].
  eapply Forall_impl; [|exact Hr]. simpl. intros r Hr'. lia.
Qed.

(** X2. The id of a stored record is never handed out again: a record
    seen in the store at some point of a session has an id smaller than
    the key any later [addFileEntry] resolves with, even if the record
    was deleted or the store cleared in between. *)
Theorem ids_are_never_reused :
  forall (e : platform) (files : list File) (before later : list action)
         (r : record) (f : File) (k : Z) (w' : world),
    In r (stored (run before (boot e files))) ->
    addFileEntry f (run later (run before (boot e files)))
    = (Resolved k, w') ->
    id r < k.
Proof.
  intros e files before later r f k w' Hin Hadd.
  set (w1 := run before (boot e files)) in *.
  assert (Hwf : world_wf w1) by (apply run_keeps_wf, createObjectStore_wf).
  destruct Hwf as (_ & Hr & _). rewrite stored_the_store in Hr.
  rewrite Forall_forall in Hr. specialize (Hr r Hin).
  destruct (run_evolves later w1) as [Hk _].
  apply addFileEntry_resolved in Hadd. destruct Hadd as [-> _]. lia.
Qed.

(** X3. Records are never updated in place: if a record seen in the
    store at some point of a session still has its id in the store later,
    it is the same record, with the same name, type, size, [added] and
    payload. *)
Theorem records_are_never_rewritten :
  forall (e : platform) (files : list File) (before later : list action)
         (r r' : record),
    In r (stored (run before (boot e files))) ->
    In r' (stored (run later (run before (boot e files)))) ->
    id r' = id r ->
    r' = r.
Proof.
  intros e files before later r r' Hin Hin' E.
  set (w1 := run before (boot e files)) in *.
  assert (Hwf : world_wf w1) by (apply run_keeps_wf, createObjectStore_wf).
  destruct (run_evolves later w1) as [_ Hold].
  destruct (Hold r' Hin') as [Hin1|Hk].
  - rewrite <- stored_the_store in Hin, Hin1.
    now apply (wf_same_id (the_store w1)).
  - destruct Hwf as (_ & Hr & _). rewrite stored_the_store in Hr.
    rewrite Forall_forall in Hr. specialize (Hr r Hin). lia.
Qed.

Lemma ids_are_never_reused_witness :
  let before := [SelectFiles [a_txt; b_bin; c_png]; ClickUpload] in
  let later := [ClickClearAll] in
  let w := run later (run before (boot steady [])) in
  In b_record (stored (run before (boot steady [])))
  /\ stored w = []
  /\ addFileEntry a_txt w = (Resolved 4, snd (addFileEntry a_txt w))
  /\ id b_record < 4.
Proof.
  intros before later w.
  assert (H1 : In b_record (stored (run before (boot steady []))))
    by (vm_compute; right; left; reflexivity).
  assert (H2 : addFileEntry a_txt w = (Resolved 4, snd (addFileEntry a_txt w)))
    by (vm_compute; reflexivity).
  split; [exact H1|]. split; [vm_compute; reflexivity|]. split; [exact H2|].
  exact (ids_are_never_reused steady [] before later b_record a_txt 4 _ H1 H2).
Defined.

Lemma records_are_never_rewritten_witness :
  let before := [SelectFiles [a_txt; b_bin; c_png]; ClickUpload] in
  let later := [Call_deleteFileById (VStr "1"); ClickRefresh] in
  In b_record (stored (run before (boot steady [])))
  /\ In b_record (stored (run later (run before (boot steady []))))
  /\ id b_record = id b_record
  /\ b_record = b_record.
Proof.
  intros before later.
  assert (H1 : In b_record (stored (run before (boot steady []))))
    by (vm_compute; right; left; reflexivity).
  assert (H2 : In b_record (stored (run later (run before (boot steady [])))))
    by (vm_compute; left; reflexivity).
  split; [exact H1|]. split; [exact H2|]. split; [reflexivity|].
  exact (records_are_never_rewritten steady [] before later
           b_record b_record H1 H2 eq_refl).
Defined.

(** * The handlers, case by case *)

(** X4. A click on Upload with nothing selected shows the prompt and does
    nothing else: no request is sent to the engine, the database, the
    button, the list and the selection are as before. *)
Theorem upload_without_selection :
  forall w : world,
    fileInput_files (page w) = [] ->
    exists w',
      uploadBtn_click w = (Resolved tt, w')
      /\ alerts (page w') = alerts (page w) ++ ["Select at least one file"%string]
      /\ database w' = database w
      /\ requests w' = requests w
      /\ uploadBtn_disabled (page w') = uploadBtn_disabled (page w)
      /\ uploadBtn_textContent (page w') = uploadBtn_textContent (page w)
      /\ fileList_children (page w') = fileList_children (page w)
      /\ console (page w') = console (page w).
Proof.
  intros w H. unfold uploadBtn_click. rewrite H.
  eexists. split; [reflexivity|]. simpl. repeat split.
Qed.

Lemma upload_without_selection_witness :
  fileInput_files (page (three_files steady)) = []
  /\ exists w',
       uploadBtn_click (three_files steady) = (Resolved tt, w')
       /\ alerts (page w')
          = alerts (page (three_files steady))
            ++ ["Select at least one file"%string]
       /\ database w' = database (three_files steady)
       /\ requests w' = requests (three_files steady)
       /\ uploadBtn_disabled (page w')
          = uploadBtn_disabled (page (three_files steady))
       /\ uploadBtn_textContent (page w')
          = uploadBtn_textContent (page (three_files steady))
       /\ fileList_children (page w')
          = fileList_children (page (three_files steady))
       /\ console (page w') = console (page (three_files steady)).
Proof.
  assert (H : fileInput_files (page (three_files steady)) = [])
    by (vm_compute; reflexivity).
  split; [exact H|]. exact (upload_without_selection _ H).
Defined.

(** X5. A click on Upload with [n > 0] files selected, the engine
    completing the [2n + 2] requests and the key generator having room:
    the handler resolves; one record per file has been appended, in
    selection order, each holding its file; the selection is cleared; the
    list shows one row per stored record, newest first; no alert is
    shown and the button is enabled and reads Upload again. *)
Theorem upload_success :
  forall w : world,
    let files := fileInput_files (page w) in
    let n := List.length files in
    files <> [] ->
    world_wf w ->
    engine_ok (2 * n + 2) w ->
    keygen (the_store w) + Z.of_nat n <= MAX_SAFE + 1 ->
    exists w' news,
      uploadBtn_click w = (Resolved tt, w')
      /\ stored w' = stored w ++ news
      /\ map blob news = files
      /\ map name news = map file_name files
      /\ map size news = map file_size files
      /\ fileInput_files (page w') = []
      /\ fileList_children (page w')
         = map createFileRow (Array_sort newest_first (stored w'))
      /\ alerts (page w') = alerts (page w)
      /\ uploadBtn_disabled (page w') = false
      /\ uploadBtn_textContent (page w') = "Upload"%string
      /\ requests w' = (2 * n + 2 + requests w)%nat.
Proof.
  intros w files n Hne Hwf Hok Hroom.
  assert (Hall : Forall (fun r => id r < keygen (the_store w)) (stored w)).
  { destruct Hwf as (_ & Hr & _). rewrite stored_the_store in Hr.
    eapply Forall_impl; [|exact Hr]. simpl. intros; lia. }
  destruct (upload_each_total files w) as [w1 Hup];
    [eapply engine_ok_weaken; [|exact Hok]; fold n; lia|exact Hroom|exact Hall|].
  assert (Hok' : engine_ok (2 * List.length files) w)
    by (eapply engine_ok_weaken; [|exact Hok]; fold n; lia).
  destruct (upload_each_resolved files w w1 Hok' Hall Hup)
    as (news & E & _ & En & _ & Es & Eb & Ep & Ee & Er).
  fold n in Er.
  assert (Hnews : stored w1 <> []).
  { rewrite E. intros H. apply app_eq_nil in H. destruct H as [_ ->].
    simpl in Eb. now apply Hne. }
  rewrite uploadBtn_click_selection by exact Hne. fold files.
  set (p0 := upload_begin (page w)).
  unfold try_finally, upload_try, try_catch.
  unfold bind at 1. rewrite upload_each_page, Hup. simpl fst. simpl snd.
  unfold bind at 1. unfold update at 1. cbv beta iota.
  change (set_page (set_files [] (page (set_page p0 w1))) (set_page p0 w1))
    with (set_page (set_files [] p0) w1).
  rewrite renderList_ok.
  - eexists. exists news.
    split; [cbv beta iota; reflexivity|].
    split.
    { change (records (the_store w1) = stored w ++ news).
      now rewrite stored_the_store. }
    split; [exact Eb|]. split; [exact En|]. split; [exact Es|].
    split; [reflexivity|].
    split.
    { change (match stored w1 with
              | [] => [EmptyNote
                         "No files stored. Upload using the control above."]
              | r :: l => map createFileRow
                              (Array_sort newest_first (r :: l))
              end
              = map createFileRow
                    (Array_sort newest_first (records (the_store w1)))).
      rewrite stored_the_store.
      destruct (stored w1); [contradiction|reflexivity]. }
    split; [reflexivity|]. split; [reflexivity|]. split; [reflexivity|].
    change ((2 + requests w1)%nat = (2 * n + 2 + requests w)%nat). lia.
  - apply engine_ok_page.
    apply (engine_ok_shift (2 * n) 2 w); [exact Ee|exact Er|exact Hok].
Qed.

Lemma upload_success_witness :
  let w := boot steady [a_txt; b_bin; c_png] in
  fileInput_files (page w) <> []
  /\ world_wf w
  /\ engine_ok 8 w
  /\ keygen (the_store w) + 3 <= MAX_SAFE + 1
  /\ exists w' news,
       uploadBtn_click w = (Resolved tt, w')
       /\ stored w' = stored w ++ news
       /\ map blob news = [a_txt; b_bin; c_png]
       /\ map name news = ["a.txt"; "b.bin"; "c.png"]%string
       /\ map size news = [10; 2048; 5242880]
       /\ fileInput_files (page w') = []
       /\ fileList_children (page w')
          = map createFileRow (Array_sort newest_first (stored w'))
       /\ alerts (page w') = alerts (page w)
       /\ uploadBtn_disabled (page w') = false
       /\ uploadBtn_textContent (page w') = "Upload"%string
       /\ requests w' = 8%nat.
Proof.
  intros w.
  assert (H1 : fileInput_files (page w) <> []) by (vm_compute; discriminate).
  assert (H2 : world_wf w) by apply createObjectStore_wf.
  assert (H3 : engine_ok 8 w) by (intros i _; split; reflexivity).
  assert (H4 : keygen (the_store w) + 3 <= MAX_SAFE + 1)
    by (vm_compute; discriminate).
  split; [exact H1|]. split; [exact H2|]. split; [exact H3|].
  split; [exact H4|].
  exact (upload_success w H1 H2 H3 H4).
Defined.

(** All the ways listAllFiles can go. *)
Lemma listAllFiles_run w :
  listAllFiles w =
  match engine (env w) (requests w) with
  | Some e => (Rejected e, set_requests (S (requests w)) w)
  | None =>
      match engine (env w) (1 + requests w) with
      | Some e => (Rejected e, settle 2 (the_store w) w)
      | None => (Resolved (stored w), settle 2 (the_store w) w)
      end
  end.
Proof.
  unfold listAllFiles, bind.
  destruct (engine (env w) (requests w)) as [e|] eqn:E0.
  - now rewrite (openDB_fails w e E0).
  - rewrite (openDB_ok w E0), transaction_settle.
    destruct (engine (env w) (1 + requests w)) as [e|] eqn:E1.
    + now rewrite request_fails with (e := e).
    + rewrite request_done by exact E1. unfold store_getAll.
      now rewrite if_same, stored_the_store.
Qed.

Lemma listAllFiles_page p w :
  listAllFiles (set_page p w)
  = (fst (listAllFiles w), set_page p (snd (listAllFiles w))).
Proof.
  rewrite !listAllFiles_run. simpl.
  destruct (engine (env w) (requests w)); [reflexivity|].
  destruct (engine (env w) (S (requests w))); reflexivity.
Qed.

Lemma listAllFiles_same_store w : the_store (snd (listAllFiles w)) = the_store w.
Proof.
  rewrite listAllFiles_run.
  destruct (engine (env w) (requests w)); [reflexivity|].
  destruct (engine (env w) (1 + requests w)); reflexivity.
Qed.

(** X6. When every file of the selection has been stored but the listing
    of the re-render fails with [e], the handler still reports
    [Upload failed] with [e]'s message, although every [addFileEntry]
    call has resolved and the store is as the calls left it; the selection
    has been cleared and the list is left empty. *)
Theorem upload_stored_but_render_failed :
  forall (w w1 w3 : world) (e : DOMException),
    fileInput_files (page w) <> [] ->
    upload_each (fileInput_files (page w)) w = (Resolved tt, w1) ->
    listAllFiles w1 = (Rejected e, w3) ->
    exists w',
      uploadBtn_click w = (Resolved tt, w')
      /\ the_store w' = the_store w1
      /\ fileInput_files (page w') = []
      /\ fileList_children (page w') = []
      /\ alerts (page w')
         = alerts (page w)
           ++ [("Upload failed: " ++ message_or_error e)%string]
      /\ uploadBtn_disabled (page w') = false.
Proof.
  intros w w1 w3 e Hne Hup Hlist.
  pose proof (listAllFiles_same_store w1) as Hst. rewrite Hlist in Hst.
  rewrite uploadBtn_click_selection by exact Hne.
  set (p0 := upload_begin (page w)).
  unfold try_finally, upload_try, try_catch.
  unfold bind at 1. rewrite upload_each_page, Hup. simpl fst. simpl snd.
  unfold bind at 1. unfold update at 1. cbv beta iota.
  unfold renderList. unfold bind at 1. unfold update at 1. cbv beta iota.
  unfold bind at 1.
  change (set_page
            (set_children []
               (page
                  (set_page (set_files [] (page (set_page p0 w1)))
                            (set_page p0 w1))))
            (set_page (set_files [] (page (set_page p0 w1)))
                      (set_page p0 w1)))
    with (set_page (set_children [] (set_files [] p0)) w1).
  rewrite listAllFiles_page, Hlist. simpl fst. simpl snd. cbv beta iota.
  eexists. split; [reflexivity|].
  split; [exact Hst|]. subst p0. simpl. repeat split.
Qed.

(** The engine fails request 6, the [open] of the listing after three
    files were stored. *)
Lemma upload_stored_but_render_failed_witness :
  let w := boot (failing_at 6) [a_txt; b_bin; c_png] in
  let w1 := snd (upload_each [a_txt; b_bin; c_png] w) in
  fileInput_files (page w) <> []
  /\ upload_each (fileInput_files (page w)) w = (Resolved tt, w1)
  /\ listAllFiles w1 = (Rejected QuotaExceeded, snd (listAllFiles w1))
  /\ exists w',
       uploadBtn_click w = (Resolved tt, w')
       /\ the_store w' = the_store w1
       /\ fileInput_files (page w') = []
       /\ fileList_children (page w') = []
       /\ alerts (page w')
          = alerts (page w)
            ++ [("Upload failed: " ++ message_or_error QuotaExceeded)%string]
       /\ uploadBtn_disabled (page w') = false.
Proof.
  intros w w1.
  assert (H1 : fileInput_files (page w) <> []) by (vm_compute; discriminate).
  assert (H2 : upload_each (fileInput_files (page w)) w = (Resolved tt, w1))
    by (vm_compute; reflexivity).
  assert (H3 : listAllFiles w1 = (Rejected QuotaExceeded, snd (listAllFiles w1)))
    by (vm_compute; reflexivity).
  split; [exact H1|]. split; [exact H2|]. split; [exact H3|].
  exact (upload_stored_but_render_failed w w1 _ QuotaExceeded H1 H2 H3).
Defined.

(** ** The list renderer, further *)

Lemma children_rendered M p w :
  fileList_children (page (set_page (set_children M p) w)) = M.
Proof. reflexivity. Qed.

(** X7. With no record in the store (or no database yet), and the engine
    completing the requests, [renderList()] leaves exactly one child in
    the list, the placeholder; with records it leaves the rows of the
    stored records, one row for each record and nothing else.  The store
    is as before. *)
Theorem renderList_placeholder_or_rows :
  forall w : world,
    engine_ok 2 w ->
    exists w',
      renderList w = (Resolved tt, w')
      /\ (stored w = [] ->
          fileList_children (page w')
          = [EmptyNote "No files stored. Upload using the control above."])
      /\ (stored w <> [] ->
          Permutation (fileList_children (page w'))
                      (map createFileRow (stored w)))
      /\ the_store w' = the_store w.
Proof.
  intros w Hok. eexists. split; [now apply renderList_ok|].
  rewrite children_rendered.
  split; [|split; [|reflexivity]].
  - intros ->. reflexivity.
  - intros Hne.
    assert (E : match stored w with
                | [] => [EmptyNote
                           "No files stored. Upload using the control above."]
                | r :: l => map createFileRow
                                (Array_sort newest_first (r :: l))
                end
                = map createFileRow (Array_sort newest_first (stored w)))
      by (destruct (stored w); [contradiction|reflexivity]).
    rewrite E. apply Permutation_map, Array_sort_perm.
Qed.

Lemma renderList_placeholder_or_rows_witness :
  engine_ok 2 (three_files steady)
  /\ stored (three_files steady) <> []
  /\ exists w',
       renderList (three_files steady) = (Resolved tt, w')
       /\ (stored (three_files steady) = [] ->
           fileList_children (page w')
           = [EmptyNote "No files stored. Upload using the control above."])
       /\ (stored (three_files steady) <> [] ->
           Permutation (fileList_children (page w'))
                       (map createFileRow (stored (three_files steady))))
       /\ the_store w' = the_store (three_files steady).
Proof.
  assert (H : engine_ok 2 (three_files steady))
    by (intros i _; vm_compute; split; reflexivity).
  split; [exact H|]. split; [vm_compute; discriminate|].
  exact (renderList_placeholder_or_rows _ H).
Defined.

(** A call that runs through its steps with nothing in between is
    [renderList]. *)
Lemma renderList_alone_eq w :
  renderList_alone w = (Settled (fst (renderList w)), snd (renderList w)).
Proof.
  assert (E : renderList w
              = match listAllFiles w with
                | (Rejected e, w') =>
                    (Rejected e, set_page (set_children [] (page w)) w')
                | (Resolved all, w') =>
                    (Resolved tt,
                     set_page
                       (set_children
                          match all with
                          | [] => [EmptyNote
                                     "No files stored. Upload using the control above."]
                          | r :: l => map createFileRow
                                          (Array_sort newest_first (r :: l))
                          end (page w)) w')
                end).
  { unfold renderList. unfold bind at 1. unfold update at 1.
    cbv beta iota. unfold bind at 1. rewrite listAllFiles_page.
    destruct (listAllFiles w) as [[all|e] w']; [|reflexivity].
    destruct all; reflexivity. }
  rewrite E, listAllFiles_run.
  unfold renderList_alone, renderList_call, renderList_resume, send_request.
  destruct w as [e [s|] n t q p]; simpl;
    (destruct (engine e n) as [e0|]; [reflexivity|]); simpl;
    (destruct (engine e (S n)) as [e1|]; [reflexivity|]); simpl.
  - destruct (records s); reflexivity.
  - reflexivity.
Qed.

(** X8. A [renderList()] that runs alone redraws the list from scratch:
    what it leaves does not depend on what the list held before, and a
    second call made after the first has settled leaves the same children
    again.  Two calls in flight at once do not: both empty the list before
    either appends, so with the engine completing the requests the list
    ends with every row (or the placeholder) twice. *)
Theorem renderList_redraws_from_scratch :
  forall (w : world) (old : list node),
    engine_ok 4 w ->
    let shown v := fileList_children (page (snd (renderList v))) in
    shown (set_page (set_children old (page w)) w) = shown w
    /\ shown (snd (renderList w)) = shown w
    /\ renderList_alone w = (Settled (Resolved tt), snd (renderList w))
    /\ fileList_children (page (renderList_overlapped w)) = shown w ++ shown w.
Proof.
  intros w old Hok shown. unfold shown.
  assert (H2 : engine_ok 2 w) by (eapply engine_ok_weaken; [|exact Hok]; lia).
  split; [|split; [|split]].
  - rewrite (renderList_ok w H2).
    rewrite renderList_ok by (apply engine_ok_page; exact H2). reflexivity.
  - rewrite (renderList_ok w H2). simpl snd. rewrite renderList_ok.
    + simpl snd. rewrite !children_rendered.
      match goal with
      | |- context [stored (set_page ?p (settle 2 (the_store w) w))] =>
          change (stored (set_page p (settle 2 (the_store w) w)))
            with (records (the_store w))
      end.
      now rewrite stored_the_store.
    + apply engine_ok_page. now apply (engine_ok_settle 2 2).
  - rewrite renderList_alone_eq. now rewrite (renderList_ok w H2).
  - rewrite (renderList_ok w H2). simpl snd. rewrite children_rendered.
    unfold renderList_overlapped, renderList_call, renderList_resume,
      send_request.
    cbv beta iota zeta.
    assert (E : forall i, (i < 4)%nat -> engine (env w) (i + requests w) = None).
    { intros i Hi. rewrite Nat.add_comm. now apply Hok. }
    pose proof (E 0%nat ltac:(lia)) as E0. pose proof (E 1%nat ltac:(lia)) as E1.
    pose proof (E 2%nat ltac:(lia)) as E2. pose proof (E 3%nat ltac:(lia)) as E3.
    destruct w as [e [s|] n t q p]; simpl in *;
      repeat (rewrite ?E0, ?E1, ?E2, ?E3; simpl);
      [destruct (records s)|]; simpl; rewrite ?app_nil_l; reflexivity.
Qed.

Lemma renderList_redraws_from_scratch_witness :
  engine_ok 4 (three_files steady)
  /\ List.length (fileList_children (page (renderList_overlapped
                                             (three_files steady)))) = 6%nat
  /\ (let shown v := fileList_children (page (snd (renderList v))) in
      shown (set_page (set_children [EmptyNote "stale"]
                                    (page (three_files steady)))
                      (three_files steady))
      = shown (three_files steady)
      /\ shown (snd (renderList (three_files steady)))
         = shown (three_files steady)
      /\ renderList_alone (three_files steady)
         = (Settled (Resolved tt), snd (renderList (three_files steady)))
      /\ fileList_children (page (renderList_overlapped (three_files steady)))
         = shown (three_files steady) ++ shown (three_files steady)).
Proof.
  assert (H : engine_ok 4 (three_files steady))
    by (intros i _; vm_compute; split; reflexivity).
  split; [exact H|]. split; [vm_compute; reflexivity|].
  exact (renderList_redraws_from_scratch _ [EmptyNote "stale"] H).
Defined.

Lemma added_at_sort_insert t x l :
  added_at t (sort_insert newest_first x l)
  = if added x =? t then x :: added_at t l else added_at t l.
Proof.
  unfold added_at.
  induction l as [|y l IH]; simpl; [reflexivity|].
  unfold newest_first at 1.
  destruct (Z.leb_spec (added y - added x) 0) as [Hle|Hgt]; simpl.
  - reflexivity.
  - rewrite IH.
    destruct (Z.eqb_spec (added y) t) as [Ey|Ny];
      destruct (Z.eqb_spec (added x) t) as [Ex|Nx]; try reflexivity.
    lia.
Qed.

Lemma added_at_Array_sort t l :
  added_at t (Array_sort newest_first l) = added_at t l.
Proof.
  induction l as [|x l IH]; simpl; [reflexivity|].
  rewrite added_at_sort_insert, IH. unfold added_at. simpl.
  now destruct (added x =? t).
Qed.

(** X9. Records with the same [added] timestamp are rendered in the
    order the store returns them, ascending id: among the rows of one
    timestamp the rendering keeps the storage order. *)
Theorem renderList_ties_keep_storage_order :
  forall w : world,
    engine_ok 2 w ->
    stored w <> [] ->
    exists w' rows,
      renderList w = (Resolved tt, w')
      /\ fileList_children (page w') = map createFileRow rows
      /\ forall t, added_at t rows = added_at t (stored w).
Proof.
  intros w Hok Hne. eexists. exists (Array_sort newest_first (stored w)).
  split; [now apply renderList_ok|]. split.
  - simpl. destruct (stored w); [contradiction|reflexivity].
  - intros t. apply added_at_Array_sort.
Qed.

Lemma renderList_ties_keep_storage_order_witness :
  engine_ok 2 (three_files frozen_clock)
  /\ stored (three_files frozen_clock) <> []
  /\ map id (Array_sort newest_first (stored (three_files frozen_clock)))
     = [1; 2; 3]
  /\ exists w' rows,
       renderList (three_files frozen_clock) = (Resolved tt, w')
       /\ fileList_children (page w') = map createFileRow rows
       /\ forall t, added_at t rows
                    = added_at t (stored (three_files frozen_clock)).
Proof.
  assert (H1 : engine_ok 2 (three_files frozen_clock))
    by (intros i _; vm_compute; split; reflexivity).
  assert (H2 : stored (three_files frozen_clock) <> [])
    by (vm_compute; discriminate).
  split; [exact H1|]. split; [exact H2|].
  split; [vm_compute; reflexivity|].
  exact (renderList_ties_keep_storage_order _ H1 H2).
Defined.

(** * The gateway, case by case *)

(** All the ways deleteFileById, getFileById and clearAll can go. *)
Lemma deleteFileById_run v w :
  deleteFileById v w =
  match engine (env w) (requests w) with
  | Some e => (Rejected e, set_requests (S (requests w)) w)
  | None =>
      match Number v with
      | NaN => (Rejected DataError, settle 1 (the_store w) w)
      | key =>
          match engine (env w) (1 + requests w) with
          | Some e => (Rejected e, settle 2 (the_store w) w)
          | None =>
              (Resolved tt,
               settle 2 (if commit (env w) (1 + requests w)
                         then store_delete key (the_store w)
                         else the_store w) w)
          end
      end
  end.
Proof.
  unfold deleteFileById, bind.
  destruct (engine (env w) (requests w)) as [e|] eqn:E0.
  - now rewrite (openDB_fails w e E0).
  - rewrite (openDB_ok w E0), transaction_settle.
    destruct (Number v); try reflexivity;
      (destruct (engine (env w) (1 + requests w)) as [e|] eqn:E1;
       [now rewrite request_fails with (e := e)
       |now rewrite request_done, ?if_same by exact E1]).
Qed.

Lemma getFileById_run v w :
  getFileById v w =
  match engine (env w) (requests w) with
  | Some e => (Rejected e, set_requests (S (requests w)) w)
  | None =>
      match Number v with
      | NaN => (Rejected DataError, settle 1 (the_store w) w)
      | key =>
          match engine (env w) (1 + requests w) with
          | Some e => (Rejected e, settle 2 (the_store w) w)
          | None => (Resolved (store_get key (the_store w)),
                     settle 2 (the_store w) w)
          end
      end
  end.
Proof.
  unfold getFileById, bind.
  destruct (engine (env w) (requests w)) as [e|] eqn:E0.
  - now rewrite (openDB_fails w e E0).
  - rewrite (openDB_ok w E0), transaction_settle.
    destruct (Number v); try reflexivity;
      (destruct (engine (env w) (1 + requests w)) as [e|] eqn:E1;
       [now rewrite request_fails with (e := e)
       |now rewrite request_done, ?if_same by exact E1]).
Qed.

Lemma clearAll_run w :
  clearAll w =
  match engine (env w) (requests w) with
  | Some e => (Rejected e, set_requests (S (requests w)) w)
  | None =>
      match engine (env w) (1 + requests w) with
      | Some e => (Rejected e, settle 2 (the_store w) w)
      | None =>
          (Resolved tt,
           settle 2 (if commit (env w) (1 + requests w)
                     then store_clear (the_store w) else the_store w) w)
      end
  end.
Proof.
  unfold clearAll, bind.
  destruct (engine (env w) (requests w)) as [e|] eqn:E0.
  - now rewrite (openDB_fails w e E0).
  - rewrite (openDB_ok w E0), transaction_settle.
    destruct (engine (env w) (1 + requests w)) as [e|] eqn:E1.
    + now rewrite request_fails with (e := e).
    + now rewrite request_done by exact E1.
Qed.

Lemma find_last_key k (l : list record) r :
  Forall (fun r' => id r' < k) l -> id r = k ->
  find (key_matches (Int k)) (l ++ [r]) = Some r.
Proof.
  intros Hall E. induction Hall as [|a l Ha _ IH]; simpl.
  - now rewrite (proj2 (Z.eqb_eq _ _) E).
  - destruct (Z.eqb_spec (id a) k); [lia|exact IH].
Qed.

Lemma find_absent k (l : list record) :
  ~ In k (map id l) -> find (key_matches (Int k)) l = None.
Proof.
  induction l as [|a l IH]; simpl; [reflexivity|].
  intros Hn. destruct (Z.eqb_spec (id a) k) as [E|_].
  - exfalso. apply Hn. now left.
  - apply IH. intros H. apply Hn. now right.
Qed.

(** X10. Store, then look up.  In a reachable store whose key
    generator has room, the engine completing and committing the
    requests: [addFileEntry(file)] resolves with an id [k], and
    [getFileById(k)] then resolves with a record that has id [k], the
    file's name, type and size, the file itself as [blob], and as [added]
    the time read during the call. *)
Theorem add_then_get :
  forall (w : world) (f : File),
    world_wf w ->
    engine_ok 4 w ->
    keygen (the_store w) <= MAX_SAFE ->
    exists k w1 r w2,
      addFileEntry f w = (Resolved k, w1)
      /\ getFileById (VNum (Int k)) w1 = (Resolved (Some r), w2)
      /\ id r = k
      /\ name r = file_name f
      /\ type r = file_type f
      /\ size r = file_size f
      /\ blob r = f
      /\ added r = clock (env w) (ticks w)
      /\ the_store w2 = the_store w1.
Proof.
  intros w f Hwf Hok Hroom.
  assert (Hall : Forall (fun r => id r < keygen (the_store w)) (stored w)).
  { destruct Hwf as (_ & Hr & _). rewrite stored_the_store in Hr.
    eapply Forall_impl; [|exact Hr]. simpl. intros; lia. }
  assert (Hok2 : engine_ok 2 w)
    by (eapply engine_ok_weaken; [|exact Hok]; lia).
  set (k := keygen (the_store w)).
  exists k. eexists. exists (with_key k (entry_of f w)). eexists.
  split; [now apply addFileEntry_ok|].
  split.
  - rewrite (getFileById_ok (VNum (Int k)));
      [|apply engine_ok_settle, engine_ok_ticks; exact Hok|discriminate].
    f_equal. f_equal. rewrite the_store_settle.
    unfold store_get. simpl. now apply find_last_key.
  - repeat split.
Qed.

Lemma add_then_get_witness :
  let w := three_files steady in
  world_wf w
  /\ engine_ok 4 w
  /\ keygen (the_store w) <= MAX_SAFE
  /\ exists k w1 r w2,
       addFileEntry a_txt w = (Resolved k, w1)
       /\ getFileById (VNum (Int k)) w1 = (Resolved (Some r), w2)
       /\ id r = k
       /\ name r = file_name a_txt
       /\ type r = file_type a_txt
       /\ size r = file_size a_txt
       /\ blob r = a_txt
       /\ added r = clock (env w) (ticks w)
       /\ the_store w2 = the_store w1.
Proof.
  intros w.
  assert (H2 : engine_ok 4 w) by (intros i _; vm_compute; split; reflexivity).
  assert (H3 : keygen (the_store w) <= MAX_SAFE) by (vm_compute; discriminate).
  split; [exact three_files_wf|]. split; [exact H2|]. split; [exact H3|].
  exact (add_then_get w a_txt three_files_wf H2 H3).
Defined.

Lemma getFileById_missing (w : world) (v : jsval) :
  engine_ok 2 w ->
  (exists k, Number v = Int k /\ ~ In k (map id (stored w)))
  \/ Number v = Frac ->
  getFileById v w = (Resolved None, settle 2 (the_store w) w).
Proof.
  intros Hok Hv.
  rewrite getFileById_ok; [|exact Hok|].
  - f_equal. f_equal. unfold store_get. rewrite stored_the_store.
    destruct Hv as [(k & -> & Hn)| ->]; [now apply find_absent|].
    induction (stored w); [reflexivity|assumption].
  - destruct Hv as [(k & -> & _)| ->]; discriminate.
Qed.

(** X11. A lookup that matches no record is not an error: when the
    engine completes the requests, [getFileById] resolves with nothing
    for an integer id that is not stored, and for every argument that
    [Number] maps to a number that is not an integer; the store is as
    before. *)
Theorem get_missing_is_empty :
  forall (w : world) (v : jsval),
    engine_ok 2 w ->
    (exists k, Number v = Int k /\ ~ In k (map id (stored w)))
    \/ Number v = Frac ->
    getFileById v w = (Resolved None, settle 2 (the_store w) w).
Proof. intros w v. apply getFileById_missing. Qed.

Lemma get_missing_is_empty_witness :
  engine_ok 2 (three_files steady)
  /\ ((exists k, Number (VStr "7") = Int k
                 /\ ~ In k (map id (stored (three_files steady))))
      \/ Number (VStr "7") = Frac)
  /\ getFileById (VStr "7") (three_files steady)
     = (Resolved None,
        settle 2 (the_store (three_files steady)) (three_files steady)).
Proof.
  assert (H1 : engine_ok 2 (three_files steady))
    by (intros i _; vm_compute; split; reflexivity).
  assert (H2 : (exists k, Number (VStr "7") = Int k
                          /\ ~ In k (map id (stored (three_files steady))))
               \/ Number (VStr "7") = Frac).
  { left. exists 7. split; [vm_compute; reflexivity|].
    vm_compute. intros [H|[H|[H|[]]]]; discriminate. }
  split; [exact H1|]. split; [exact H2|].
  exact (get_missing_is_empty _ (VStr "7") H1 H2).
Defined.

(** X12. An id that [Number] maps to NaN (a string that is no numeric
    literal, [undefined]) makes both [getFileById] and [deleteFileById]
    reject with DataError once the database is open: the engine is sent
    the [open] only, and no record is touched. *)
Theorem not_a_number_id_is_rejected :
  forall (w : world) (v : jsval),
    Number v = NaN ->
    engine (env w) (requests w) = None ->
    getFileById v w = (Rejected DataError, settle 1 (the_store w) w)
    /\ deleteFileById v w = (Rejected DataError, settle 1 (the_store w) w)
    /\ stored (settle 1 (the_store w) w) = stored w.
Proof.
  intros w v Hv H0.
  rewrite getFileById_run, deleteFileById_run, H0, Hv.
  repeat split. now rewrite stored_settle, stored_the_store.
Qed.

Lemma not_a_number_id_is_rejected_witness :
  let w := three_files steady in
  Number (VStr "abc") = NaN
  /\ engine (env w) (requests w) = None
  /\ getFileById (VStr "abc") w
     = (Rejected DataError, settle 1 (the_store w) w)
  /\ deleteFileById (VStr "abc") w
     = (Rejected DataError, settle 1 (the_store w) w)
  /\ stored (settle 1 (the_store w) w) = stored w.
Proof.
  intros w.
  assert (H1 : Number (VStr "abc") = NaN) by (vm_compute; reflexivity).
  assert (H2 : engine (env w) (requests w) = None) by (vm_compute; reflexivity).
  split; [exact H1|]. split; [exact H2|].
  exact (not_a_number_id_is_rejected w (VStr "abc") H1 H2).
Defined.

Lemma getFileById_same_store v w :
  the_store (snd (getFileById v w)) = the_store w.
Proof.
  rewrite getFileById_run.
  destruct (engine (env w) (requests w)); [reflexivity|].
  destruct (Number v); try reflexivity;
    destruct (engine (env w) (1 + requests w)); reflexivity.
Qed.

(** X13. Reading never writes: whatever the engine answers,
    [listAllFiles], [getFileById] and a click on Refresh leave the records
    and the key generator exactly as they were. *)
Theorem reads_do_not_write :
  forall (w : world) (v : jsval),
    the_store (snd (listAllFiles w)) = the_store w
    /\ the_store (snd (getFileById v w)) = the_store w
    /\ the_store (dispatch refreshBtn_click w) = the_store w.
Proof.
  intros w v.
  split; [apply listAllFiles_same_store|].
  split; [apply getFileById_same_store|].
  set (same := fun a b : world => the_store b = the_store a).
  assert (Hf : forall a b, database b = database a -> same a b)
    by (intros a b E; unfold same, the_store; now rewrite E).
  assert (Ht : forall a b c, same a b -> same b c -> same a c)
    by (unfold same; intros a b c H1 H2; now rewrite H2).
  apply (respects_dispatch same Hf Ht).
  apply (respects_renderList same Hf Ht).
  intros w0. apply listAllFiles_same_store.
Qed.

(** X14. A write that fails changes nothing: when [addFileEntry],
    [deleteFileById] or [clearAll] rejects, for whatever reason, the
    records and the key generator are exactly as before the call. *)
Theorem failed_write_changes_nothing :
  forall (w w' : world) (e : DOMException),
    (forall f, addFileEntry f w = (Rejected e, w') ->
               the_store w' = the_store w)
    /\ (forall v, deleteFileById v w = (Rejected e, w') ->
                  the_store w' = the_store w)
    /\ (clearAll w = (Rejected e, w') -> the_store w' = the_store w).
Proof.
  intros w w' e. split; [|split].
  - intros f H. now apply addFileEntry_rejected in H.
  - intros v. rewrite deleteFileById_run.
    destruct (engine (env w) (requests w));
      [intros H; inversion H; reflexivity|].
    destruct (Number v);
      try (intros H; inversion H; reflexivity);
      destruct (engine (env w) (1 + requests w));
      intros H; inversion H; reflexivity.
  - rewrite clearAll_run.
    destruct (engine (env w) (requests w));
      [intros H; inversion H; reflexivity|].
    destruct (engine (env w) (1 + requests w));
      intros H; inversion H; reflexivity.
Qed.

Lemma failed_write_changes_nothing_witness :
  clearAll one_record
  = (Rejected QuotaExceeded, snd (clearAll one_record))
  /\ the_store (snd (clearAll one_record)) = the_store one_record
  /\ List.length (stored (snd (clearAll one_record))) = 1%nat.
Proof.
  assert (H : clearAll one_record
              = (Rejected QuotaExceeded, snd (clearAll one_record)))
    by (vm_compute; reflexivity).
  split; [exact H|]. split.
  - destruct (failed_write_changes_nothing
                one_record (snd (clearAll one_record)) QuotaExceeded)
      as (_ & _ & Hc).
    exact (Hc H).
  - vm_compute. reflexivity.
Defined.

(** * The row buttons and Clear All *)

Lemma engine_ok_prompts n k w : engine_ok n w -> engine_ok n (set_prompts k w).
Proof. intros H i Hi. apply (H i Hi). Qed.

(** What renderList shows for the records [l]. *)
Lemma renderList_after k s w :
  engine_ok 2 (settle k s w) ->
  renderList (settle k s w)
  = (Resolved tt,
     set_page
       (set_children
          match records s with
          | [] => [EmptyNote "No files stored. Upload using the control above."]
          | r :: l => map createFileRow (Array_sort newest_first (r :: l))
          end (page w))
       (settle (2 + k) s w)).
Proof. intros H. now rewrite renderList_ok. Qed.

(** X15. A confirmed click on a row's Delete, the engine completing the
    requests: every record with the row's id is removed and no other, the
    key generator is untouched, the list is redrawn from what is left
    (the placeholder if nothing is), the deleted item's row is not in it,
    and nothing is alerted. *)
Theorem delete_click_removes_the_row :
  forall (w : world) (item : record),
    answers (env w) (prompts w) = true ->
    engine_ok 4 w ->
    let w' := dispatch (delBtn_click item) w in
    let left := filter (fun r => negb (id r =? id item)) (stored w) in
    stored w' = left
    /\ keygen (the_store w') = keygen (the_store w)
    /\ fileList_children (page w')
       = match left with
         | [] => [EmptyNote "No files stored. Upload using the control above."]
         | r :: l => map createFileRow (Array_sort newest_first (r :: l))
         end
    /\ ~ In (createFileRow item) (fileList_children (page w'))
    /\ alerts (page w') = alerts (page w)
    /\ unhandled (page w') = unhandled (page w).
Proof.
  intros w item Hyes Hok w' left.
  assert (E : w' = set_page
                     (set_children
                        match left with
                        | [] => [EmptyNote
                                   "No files stored. Upload using the control above."]
                        | r :: l => map createFileRow
                                        (Array_sort newest_first (r :: l))
                        end (page w))
                     (settle 4 (store_delete (Int (id item)) (the_store w))
                             (set_prompts (S (prompts w)) w))).
  { unfold w', dispatch, detach, delBtn_click, bind, confirm.
    rewrite Hyes. change (negb true) with false. cbv beta iota.
    rewrite (deleteFileById_ok (VNum (Int (id item))))
      by first [discriminate
               |apply engine_ok_prompts;
                eapply engine_ok_weaken; [|exact Hok]; lia].
    change (Number (VNum (Int (id item)))) with (Int (id item)).
    change (the_store (set_prompts (S (prompts w)) w)) with (the_store w).
    unfold detach.
    rewrite renderList_after
      by (apply engine_ok_settle, engine_ok_prompts; exact Hok).
    unfold left. rewrite <- stored_the_store. reflexivity. }
  rewrite E. clear E w'.
  split.
  { change (records (store_delete (Int (id item)) (the_store w)) = left).
    unfold left, store_delete. cbn [records].
    rewrite stored_the_store. reflexivity. }
  split; [reflexivity|]. split; [reflexivity|].
  split; [|split; reflexivity].
  rewrite children_rendered.
  assert (Hl : forall r, In r left -> id r <> id item).
  { intros r Hr. apply filter_In in Hr. destruct Hr as [_ Hr].
    apply negb_true_iff, Z.eqb_neq in Hr. exact Hr. }
  destruct left as [|r0 l0] eqn:El.
  - intros [H|[]]. discriminate.
  - intros Hin. apply in_map_iff in Hin. destruct Hin as (r & Er & Hr).
    apply (Hl r).
    + eapply Permutation_in; [apply Array_sort_perm|exact Hr].
    + unfold createFileRow in Er. now inversion Er.
Qed.

Lemma delete_click_removes_the_row_witness :
  let w := three_files steady in
  let w' := dispatch (delBtn_click b_record) w in
  answers (env w) (prompts w) = true
  /\ engine_ok 4 w
  /\ map id (stored w') = [1; 3]
  /\ stored w' = filter (fun r => negb (id r =? id b_record)) (stored w)
  /\ ~ In (createFileRow b_record) (fileList_children (page w'))
  /\ alerts (page w') = alerts (page w).
Proof.
  intros w w'.
  assert (H1 : answers (env w) (prompts w) = true) by (vm_compute; reflexivity).
  assert (H2 : engine_ok 4 w) by (intros i _; vm_compute; split; reflexivity).
  destruct (delete_click_removes_the_row w b_record H1 H2)
    as (A & _ & _ & B & C & _).
  split; [exact H1|]. split; [exact H2|].
  split; [vm_compute; reflexivity|].
  split; [exact A|]. split; [exact B|exact C].
Defined.

(** X16. A declined confirmation stops both destructive buttons: the
    row's Delete and Clear All then send no request to the engine and
    change nothing of the database or of the page. *)
Theorem declined_confirmation_changes_nothing :
  forall (w : world) (item : record),
    answers (env w) (prompts w) = false ->
    dispatch (delBtn_click item) w = set_prompts (S (prompts w)) w
    /\ dispatch clearAllBtn_click w = set_prompts (S (prompts w)) w.
Proof.
  intros w item Hno.
  unfold dispatch, detach, delBtn_click, clearAllBtn_click, bind, confirm.
  rewrite Hno. split; reflexivity.
Qed.

(** A user who declines every confirmation. *)
Lemma declined_confirmation_changes_nothing_witness :
  let w := set_prompts 0 (mkWorld
             (mkPlatform (fun _ => None) (fun _ => true) (fun _ => 0)
                         (fun _ => false))
             (database (three_files steady)) 6 3 0 (loaded_page [])) in
  answers (env w) (prompts w) = false
  /\ dispatch (delBtn_click b_record) w = set_prompts 1 w
  /\ dispatch clearAllBtn_click w = set_prompts 1 w
  /\ List.length (stored (dispatch clearAllBtn_click w)) = 3%nat.
Proof.
  intros w.
  assert (H : answers (env w) (prompts w) = false) by reflexivity.
  destruct (declined_confirmation_changes_nothing w b_record H) as [A B].
  split; [exact H|]. split; [exact A|]. split; [exact B|].
  vm_compute. reflexivity.
Defined.

(** X17. A confirmed click on Clear All, the engine completing the
    requests: the store is empty, the list shows the placeholder alone,
    nothing is alerted, and the key generator keeps its number, so the
    next file gets a fresh id and not 1 again. *)
Theorem clear_all_click_empties_the_store :
  forall w : world,
    answers (env w) (prompts w) = true ->
    engine_ok 4 w ->
    let w' := dispatch clearAllBtn_click w in
    stored w' = []
    /\ keygen (the_store w') = keygen (the_store w)
    /\ fileList_children (page w')
       = [EmptyNote "No files stored. Upload using the control above."]
    /\ alerts (page w') = alerts (page w)
    /\ unhandled (page w') = unhandled (page w).
Proof.
  intros w Hyes Hok w'.
  assert (E : w' = set_page
                     (set_children
                        [EmptyNote
                           "No files stored. Upload using the control above."]
                        (page w))
                     (settle 4 (store_clear (the_store w))
                             (set_prompts (S (prompts w)) w))).
  { unfold w', dispatch, detach, clearAllBtn_click, bind, confirm.
    rewrite Hyes. change (negb true) with false. cbv beta iota.
    rewrite clearAll_ok
      by (apply engine_ok_prompts;
          eapply engine_ok_weaken; [|exact Hok]; lia).
    change (the_store (set_prompts (S (prompts w)) w)) with (the_store w).
    unfold detach.
    rewrite renderList_after
      by (apply engine_ok_settle, engine_ok_prompts; exact Hok).
    reflexivity. }
  rewrite E. repeat split.
Qed.

Lemma clear_all_click_empties_the_store_witness :
  let w := three_files steady in
  let w' := dispatch clearAllBtn_click w in
  answers (env w) (prompts w) = true
  /\ engine_ok 4 w
  /\ stored w' = []
  /\ keygen (the_store w') = 4
  /\ fileList_children (page w')
     = [EmptyNote "No files stored. Upload using the control above."].
Proof.
  intros w w'.
  assert (H1 : answers (env w) (prompts w) = true) by (vm_compute; reflexivity).
  assert (H2 : engine_ok 4 w) by (intros i _; vm_compute; split; reflexivity).
  destruct (clear_all_click_empties_the_store w H1 H2) as (A & B & C & _).
  split; [exact H1|]. split; [exact H2|]. split; [exact A|].
  split; [|exact C].
  transitivity (keygen (the_store w)); [exact B|vm_compute; reflexivity].
Defined.

(** * The download button *)

Lemma find_the_record (l : list record) r :
  StronglySorted Z.lt (map id l) -> In r l ->
  find (key_matches (Int (id r))) l = Some r.
Proof.
  induction l as [|a l IH]; simpl; [intros _ []|].
  intros Hs Hin. inversion Hs as [|? ? Hs' Hall]; subst.
  destruct Hin as [->|Hin]; [now rewrite Z.eqb_refl|].
  destruct (Z.eqb_spec (id a) (id r)) as [E|_]; [|now apply IH].
  rewrite Forall_forall in Hall.
  specialize (Hall (id r) (in_map id _ _ Hin)). lia.
Qed.

Lemma revoked_stays_revoked ts :
  forall live u,
    ~ In u (map fst live) ->
    ~ In u (map fst (fold_left (fun l (t : Z * nat) => revokeObjectURL (snd t) l)
                           ts live)).
Proof.
  induction ts as [|t ts IH]; intros live u Hn; simpl; [exact Hn|].
  apply IH. intros H. apply Hn. apply in_map_iff in H.
  destruct H as (x & Ex & Hx). apply filter_In in Hx.
  apply in_map_iff. exists x. now split.
Qed.

Lemma timer_revokes ts :
  forall live (d : Z) u,
    In (d, u) ts ->
    ~ In u (map fst (fold_left (fun l (t : Z * nat) => revokeObjectURL (snd t) l)
                           ts live)).
Proof.
  induction ts as [|t ts IH]; intros live d u Hin; simpl; [destruct Hin|].
  destruct Hin as [->|Hin]; [|now apply (IH _ d)].
  apply revoked_stays_revoked. simpl. intros H. apply in_map_iff in H.
  destruct H as (x & Ex & Hx). apply filter_In in Hx. destruct Hx as [_ Hx].
  rewrite Ex, Nat.eqb_refl in Hx. discriminate.
Qed.

(** X18. Download of a row whose record is gone (deleted since the list
    was drawn), the engine completing the requests: the handler alerts
    [File data missing] and does nothing else; no object URL is made, no
    download starts, no timer is set, the store is as before. *)
Theorem download_of_missing_record :
  forall (s : session) (item : record),
    engine_ok 2 (tab s) ->
    ~ In (id item) (map id (stored (tab s))) ->
    exists s',
      dlBtn_click item s = (Resolved tt, s')
      /\ alerts (page (tab s'))
         = alerts (page (tab s)) ++ ["File data missing"%string]
      /\ xfer s' = xfer s
      /\ the_store (tab s') = the_store (tab s).
Proof.
  intros s item Hok Hn. unfold dlBtn_click.
  rewrite (getFileById_missing (tab s) (VNum (Int (id item))) Hok)
    by (left; exists (id item); now split).
  eexists. split; [reflexivity|]. repeat split.
Qed.

Lemma download_of_missing_record_witness :
  let s := mkSession (dispatch (delBtn_click b_record) (three_files steady))
                     (mkTransfers 0 [] [] []) in
  engine_ok 2 (tab s)
  /\ ~ In (id b_record) (map id (stored (tab s)))
  /\ exists s',
       dlBtn_click b_record s = (Resolved tt, s')
       /\ alerts (page (tab s'))
          = alerts (page (tab s)) ++ ["File data missing"%string]
       /\ xfer s' = xfer s
       /\ the_store (tab s') = the_store (tab s).
Proof.
  intros s.
  assert (H1 : engine_ok 2 (tab s)) by (intros i _; vm_compute; split; reflexivity).
  assert (H2 : ~ In (id b_record) (map id (stored (tab s))))
    by (vm_compute; intros [H|[H|[]]]; discriminate).
  split; [exact H1|]. split; [exact H2|].
  exact (download_of_missing_record s b_record H1 H2).
Defined.

(** X19. Download of a row whose record [r] is in a reachable store, the
    engine completing the requests: one download starts, under the stored
    name and through a new object URL that holds the stored payload;
    nothing is alerted and the store is untouched; one timer of 5000 ms is
    set, and once the timers have fired that URL is revoked. *)
Theorem download_saves_the_stored_file :
  forall (s : session) (item r : record),
    world_wf (tab s) ->
    In r (stored (tab s)) ->
    id r = id item ->
    engine_ok 2 (tab s) ->
    exists s',
      let url := next_url (xfer s) in
      dlBtn_click item s = (Resolved tt, s')
      /\ downloads (xfer s') = downloads (xfer s) ++ [(name r, url)]
      /\ live_urls (xfer s') = live_urls (xfer s) ++ [(url, blob r)]
      /\ timers (xfer s') = timers (xfer s) ++ [(5000, url)]
      /\ next_url (xfer s') = S url
      /\ alerts (page (tab s')) = alerts (page (tab s))
      /\ the_store (tab s') = the_store (tab s)
      /\ ~ In url (map fst (live_urls (timers_fired (xfer s')))).
Proof.
  intros s item r Hwf Hin Eid Hok. unfold dlBtn_click.
  rewrite (getFileById_ok (VNum (Int (id item))) (tab s) Hok) by discriminate.
  change (Number (VNum (Int (id item)))) with (Int (id item)).
  unfold store_get. rewrite stored_the_store, <- Eid.
  destruct Hwf as (Hs & _ & _). rewrite stored_the_store in Hs.
  rewrite (find_the_record _ r Hs Hin).
  eexists. split; [reflexivity|]. simpl.
  repeat split.
  apply (timer_revokes _ _ 5000). apply in_or_app. right. now left.
Qed.

Lemma download_saves_the_stored_file_witness :
  let s := mkSession (three_files steady) (mkTransfers 0 [] [] []) in
  world_wf (tab s)
  /\ In b_record (stored (tab s))
  /\ id b_record = id b_record
  /\ engine_ok 2 (tab s)
  /\ exists s',
       let url := next_url (xfer s) in
       dlBtn_click b_record s = (Resolved tt, s')
       /\ downloads (xfer s') = downloads (xfer s) ++ [(name b_record, url)]
       /\ live_urls (xfer s') = live_urls (xfer s) ++ [(url, blob b_record)]
       /\ timers (xfer s') = timers (xfer s) ++ [(5000, url)]
       /\ next_url (xfer s') = S url
       /\ alerts (page (tab s')) = alerts (page (tab s))
       /\ the_store (tab s') = the_store (tab s)
       /\ ~ In url (map fst (live_urls (timers_fired (xfer s')))).
Proof.
  intros s.
  assert (H2 : In b_record (stored (tab s)))
    by (vm_compute; right; left; reflexivity).
  assert (H4 : engine_ok 2 (tab s)) by (intros i _; vm_compute; split; reflexivity).
  split; [exact three_files_wf|]. split; [exact H2|].
  split; [reflexivity|]. split; [exact H4|].
  exact (download_saves_the_stored_file s b_record b_record
           three_files_wf H2 eq_refl H4).
Defined.

(** * Requests and sizes *)

Lemma asks_weaken {A} k k' (m : promise A) :
  (k <= k')%nat -> asks k m -> asks k' m.
Proof. intros Hle H w. specialize (H w). lia. Qed.

Lemma asks_bind {A B} k1 k2 (m : promise A) (k : A -> promise B) :
  asks k1 m -> (forall a, asks k2 (k a)) -> asks (k1 + k2) (bind m k).
Proof.
  intros Hm Hk w. unfold bind. specialize (Hm w).
  destruct (m w) as [[a|e] w']; simpl in *; [|lia].
  specialize (Hk a w'). lia.
Qed.

Lemma asks_catch {A} k1 k2 (m : promise A) h :
  asks k1 m -> (forall e, asks k2 (h e)) -> asks (k1 + k2) (try_catch m h).
Proof.
  intros Hm Hh w. unfold try_catch. specialize (Hm w).
  destruct (m w) as [[a|e] w']; simpl in *; [lia|].
  specialize (Hh e w'). lia.
Qed.

Lemma asks_finally {A} k (m : promise A) f :
  asks k m -> (forall w, requests (f w) = requests w) ->
  asks k (try_finally m f).
Proof.
  intros Hm Hf w. unfold try_finally. specialize (Hm w).
  destruct (m w) as [r w']; simpl in *. now rewrite Hf.
Qed.

Lemma asks_detach {A} k (m : promise A) : asks k m -> asks k (detach m).
Proof.
  intros Hm w. unfold detach. specialize (Hm w).
  destruct (m w) as [[a|e] w']; simpl in *; lia.
Qed.

Lemma asks_nothing {A} (m : promise A) :
  (forall w, requests (snd (m w)) = requests w) -> asks 0 m.
Proof. intros H w. rewrite H. lia. Qed.

Lemma asks_gateway :
  (forall f, asks 2 (addFileEntry f))
  /\ asks 2 listAllFiles
  /\ (forall v, asks 2 (deleteFileById v))
  /\ asks 2 clearAll.
Proof.
  split; [|split; [|split]].
  - intros f w. rewrite addFileEntry_run.
    destruct (engine (env w) (requests w)); simpl; [lia|].
    destruct (engine (env w) (S (requests w))); simpl; [lia|].
    destruct (store_add (entry_of f w) (the_store w)) as [[k|e] s'];
      simpl; lia.
  - intros w. rewrite listAllFiles_run.
    destruct (engine (env w) (requests w)); simpl; [lia|].
    destruct (engine (env w) (S (requests w))); simpl; lia.
  - intros v w. rewrite deleteFileById_run.
    destruct (engine (env w) (requests w)); simpl; [lia|].
    destruct (Number v); simpl; try lia;
      destruct (engine (env w) (S (requests w))); simpl; lia.
  - intros w. rewrite clearAll_run.
    destruct (engine (env w) (requests w)); simpl; [lia|].
    destruct (engine (env w) (S (requests w))); simpl; lia.
Qed.

Lemma asks_renderList : asks 2 renderList.
Proof.
  destruct asks_gateway as (_ & Hl & _).
  unfold renderList.
  apply (asks_bind 0 2); [now apply asks_nothing|intros _].
  apply (asks_bind 2 0); [exact Hl|intros all].
  destruct all; now apply asks_nothing.
Qed.

Lemma asks_upload_each files :
  asks (2 * List.length files) (upload_each files).
Proof.
  destruct asks_gateway as (Ha & _).
  induction files as [|f files IH]; [now apply asks_nothing|].
  simpl upload_each.
  apply (asks_weaken (2 + 2 * List.length files)); [simpl; lia|].
  apply asks_bind; [apply Ha|]. intros _. exact IH.
Qed.

(** X20. No handler asks the engine more than it needs or asks again:
    whatever the engine answers, a click on Upload with [n] files
    selected sends at most [2n + 2] requests (an [open] and an [add] per
    file and the two of the re-render), a click on Refresh at most 2, a
    click on a row's Delete or on Clear All at most 4. *)
Theorem handlers_never_retry :
  (forall w,
      (requests w <= requests (snd (uploadBtn_click w))
       <= 2 * List.length (fileInput_files (page w)) + 2 + requests w)%nat)
  /\ asks 2 refreshBtn_click
  /\ (forall item, asks 4 (delBtn_click item))
  /\ asks 4 clearAllBtn_click.
Proof.
  destruct asks_gateway as (_ & _ & Hd & Hc).
  pose proof asks_renderList as Hr.
  split; [|split; [exact Hr|split]].
  - intros w. unfold uploadBtn_click.
    destruct (fileInput_files (page w)) as [|f fs] eqn:E; [simpl; lia|].
    rewrite <- E.
    apply (asks_bind 0 (2 * List.length (fileInput_files (page w)) + 2)
                     (update upload_begin));
      [now apply asks_nothing|intros _].
    apply asks_finally; [|reflexivity].
    unfold upload_try.
    apply (asks_weaken
             (2 * List.length (fileInput_files (page w)) + (0 + 2) + (0 + 0)));
      [lia|].
    apply asks_catch.
    + apply asks_bind; [apply asks_upload_each|intros _].
      apply asks_bind; [now apply asks_nothing|intros _]. exact Hr.
    + intros e. apply asks_bind; [|intros _]; now apply asks_nothing.
  - intros item. unfold delBtn_click.
    apply (asks_bind 0 4); [now apply asks_nothing|intros ok].
    destruct ok; simpl;
      [|apply (asks_weaken 0); [lia|now apply asks_nothing]].
    apply (asks_bind 2 2); [apply Hd|intros _]. now apply asks_detach.
  - unfold clearAllBtn_click.
    apply (asks_bind 0 4); [now apply asks_nothing|intros ok].
    destruct ok; simpl;
      [|apply (asks_weaken 0); [lia|now apply asks_nothing]].
    apply (asks_bind 2 2); [exact Hc|intros _]. now apply asks_detach.
Qed.

Lemma tenths_top_of_band n q :
  0 < q -> 20 * n + q >= 10240 * (2 * q) -> 20 * n + q < 10241 * (2 * q) ->
  tenths n q = 10240.
Proof.
  intros Hq Hlo Hhi. unfold tenths. symmetry.
  apply (Z.div_unique _ _ _ (2 * 10 * n + q - 10240 * (2 * q))); lia.
Qed.

(** X21. Just below a unit boundary the rounding reaches 1024 of the
    smaller unit: every size from 1048525 to 1048575 bytes reads
    "1024.0 KB" and every size from 1073689396 to 1073741823 bytes reads
    "1024.0 MB", while the sizes from the boundary on read 1.0 of the
    next unit. *)
Theorem humanSize_top_of_band :
  forall n : Z,
    (1048525 <= n < 1048576 -> humanSize n = "1024.0 KB"%string)
    /\ (1073689396 <= n < 1073741824 -> humanSize n = "1024.0 MB"%string)
    /\ humanSize 1048576 = "1.0 MB"%string
    /\ humanSize 1073741824 = "1.0 GB"%string.
Proof.
  intros n. split; [|split; [|split; reflexivity]].
  - intros H. unfold humanSize.
    destruct (Z.ltb_spec n 1024); [lia|].
    destruct (Z.ltb_spec n (1024 * 1024)); [|lia].
    rewrite toFixed1_below_1e21, tenths_top_of_band by lia. reflexivity.
  - intros H. unfold humanSize.
    destruct (Z.ltb_spec n 1024); [lia|].
    destruct (Z.ltb_spec n (1024 * 1024)); [lia|].
    destruct (Z.ltb_spec n (1024 * 1024 * 1024)); [|lia].
    rewrite toFixed1_below_1e21, tenths_top_of_band by lia. reflexivity.
Qed.

Lemma humanSize_top_of_band_witness :
  1048525 <= 1048550 < 1048576
  /\ humanSize 1048550 = "1024.0 KB"%string
  /\ 1073689396 <= 1073700000 < 1073741824
  /\ humanSize 1073700000 = "1024.0 MB"%string.
Proof.
  assert (H1 : 1048525 <= 1048550 < 1048576) by lia.
  assert (H2 : 1073689396 <= 1073700000 < 1073741824) by lia.
  destruct (humanSize_top_of_band 1048550) as (A & _).
  destruct (humanSize_top_of_band 1073700000) as (_ & B & _).
  split; [exact H1|]. split; [exact (A H1)|].
  split; [exact H2|exact (B H2)].
Defined.

(** * Opening the database *)

(** X22. [openDB] creates the store once and never replaces it.  When
    the engine completes the [open]: a browser without the database gets
    an empty store whose key generator is at 1, and a browser with the
    database gets its store back, records and key generator untouched.
    When the engine fails the [open], the call rejects with the engine's
    error and the database is as before, absent if it was absent. *)
Theorem openDB_creates_once :
  forall w : world,
    (engine (env w) (requests w) = None ->
     exists w',
       openDB w = (Resolved tt, w')
       /\ (database w = None ->
           database w' = Some {| records := []; keygen := 1 |})
       /\ (forall s, database w = Some s -> database w' = Some s)
       /\ requests w' = S (requests w))
    /\ (forall e, engine (env w) (requests w) = Some e ->
        exists w',
          openDB w = (Rejected e, w')
          /\ database w' = database w
          /\ requests w' = S (requests w)).
Proof.
  intros w. split.
  - intros H. rewrite (openDB_ok w H). eexists. split; [reflexivity|].
    unfold settle, the_store. simpl.
    split; [|split; [|reflexivity]].
    + intros ->. reflexivity.
    + intros s ->. reflexivity.
  - intros e H. rewrite (openDB_fails w e H). eexists.
    split; [reflexivity|]. split; reflexivity.
Qed.

Lemma openDB_creates_once_witness :
  engine (env (boot steady [])) (requests (boot steady [])) = None
  /\ database (boot steady []) = None
  /\ exists w',
       openDB (boot steady []) = (Resolved tt, w')
       /\ database w' = Some {| records := []; keygen := 1 |}
       /\ requests w' = 1%nat.
Proof.
  assert (H : engine (env (boot steady [])) (requests (boot steady [])) = None)
    by reflexivity.
  split; [exact H|]. split; [reflexivity|].
  destruct (openDB_creates_once (boot steady [])) as [Hok _].
  destruct (Hok H) as (w' & E & Hnone & _ & Hreq).
  exists w'. split; [exact E|]. split; [exact (Hnone eq_refl)|exact Hreq].
Defined.
